(** * The dichroic-signal stream of [id4_common/callbacks/dichro_stream.py]

    A shallow embedding of [Settings], [DichroDevice] and [DichroStream]
    together with the window reducer [process_xmcd], and the properties of
    the windowed aggregation that the instrument documentation states.

    Python objects are records, dictionaries are finite maps ([gmap]) or
    association lists where iteration order is observable, exceptions are
    the [Raise] outcome of a state-and-exception monad over the mutable
    world (the stream object, the module-level [dichro] device and the
    logger). *)

From Stdlib Require Import ZArith String List.
From Stdlib Require Reals Lra.
From stdpp Require Import gmap strings list.

Local Open Scope string_scope.
Local Open Scope list_scope.

(** ** Numeric interface

    The reducer only composes numpy operations; they are kept abstract so
    that every statement below holds for whatever [numpy] computes on
    float64 arrays.  Readings are scalars: for a list of scalars
    [mean(xs, axis=0)] and [mean(xs)] coincide, so one [fmean] serves. *)
Class Numeric (num : Type) := {
  fdiv : num -> num -> num;      (* numpy true division, element-wise *)
  fmul : num -> num -> num;      (* numpy multiplication, element-wise *)
  flog : num -> num;             (* numpy.log *)
  fmean : list num -> num;       (* numpy.mean of a 1-d array *)
  of_int : Z -> num;             (* a Python int promoted to float64 *)
  nan : num                      (* numpy.nan *)
}.

(** Python exceptions that the modelled code can raise. *)
Inductive exn :=
| Exception (msg : string)
| KeyError (key : string)
| IndexError
| UnboundLocalError (var : string)
| AttributeError (attr : string)
| ValueError (msg : string).

Inductive result (A : Type) :=
| Ok (a : A)
| Raise (e : exn).
Arguments Ok {A} a.
Arguments Raise {A} e.

#[export] Instance result_ret : MRet result := fun A a => Ok a.
#[export] Instance result_bind : MBind result := fun A B k r =>
  match r with
  | Ok a => k a
  | Raise e => Raise e
  end.

(** [needle in hay] on Python strings. *)
Fixpoint str_in (needle hay : string) : bool :=
  match hay with
  | EmptyString => String.prefix needle hay
  | String _ rest => String.prefix needle hay || str_in needle rest
  end.

(** ** Settings *)
Record Settings := {
  positioner1 : option string;
  positioner2 : option string;
  monitor : option string;
  detector : option string;
  transmission : bool;
  pattern : list Z
}.

(** The class attributes of [Settings]. *)
Definition Settings_default : Settings :=
  {| positioner1 := Some "energy";
     positioner2 := None;
     monitor := Some "4idhI0";
     detector := Some "4idhI1";
     transmission := true;
     pattern := [1; -1; -1; 1]%Z |}.

(** [getattr(self, item)] for the four role names. *)
Definition getattr (s : Settings) (item : string) : option string :=
  if String.eqb item "positioner1" then positioner1 s
  else if String.eqb item "positioner2" then positioner2 s
  else if String.eqb item "monitor" then monitor s
  else if String.eqb item "detector" then detector s
  else None.

(** [Settings.get_keys]: a dict, kept as an association list because
    [process_xmcd] iterates over its items in insertion order. *)
Definition get_keys (s : Settings) : list (string * string) :=
  omap (fun item => match getattr s item with
                    | Some v => Some (item, v)
                    | None => None
                    end)
       ["positioner1"; "positioner2"; "monitor"; "detector"].

(** ** Exact arithmetic

    An instance of the numeric interface in which the operations are the
    ones of the real numbers, extended with one NaN; it is used to run
    the model on concrete windows. *)
Module RealArith.
Import Reals.

Inductive xreal :=
| Real (r : R)
| NaN.

Definition of_Z (z : Z) : xreal := Real (IZR z).

Definition lift1 (f : R -> R) (x : xreal) : xreal :=
  match x with
  | Real r => Real (f r)
  | NaN => NaN
  end.

Definition lift2 (f : R -> R -> R) (x y : xreal) : xreal :=
  match x, y with
  | Real r1, Real r2 => Real (f r1 r2)
  | _, _ => NaN
  end.

Definition sum (xs : list xreal) : xreal :=
  fold_left (lift2 Rplus) xs (Real 0%R).

Definition mean (xs : list xreal) : xreal :=
  match xs with
  | [] => NaN
  | _ :: _ => lift2 Rdiv (sum xs) (Real (INR (length xs)))
  end.

#[export] Instance real_numeric : Numeric xreal :=
  {| fdiv := lift2 Rdiv;
     fmul := lift2 Rmult;
     flog := lift1 ln;
     fmean := mean;
     of_int := of_Z;
     nan := NaN |}.

End RealArith.

(** [settings.positioner2 = pos], as the staging code does before a run. *)
Definition set_positioner2 (pos : option string) (s : Settings) : Settings :=
  {| positioner1 := positioner1 s;
     positioner2 := pos;
     monitor := monitor s;
     detector := detector s;
     transmission := transmission s;
     pattern := pattern s |}.

(** ** Staging a dichro scan

    The assignments that [stage_dichro_wrapper._stage] of
    [plans/local_preprocessors.py] makes to [plot_dichro_settings.settings]
    when [dichro] is set, before it subscribes the stream. *)

(** [setattr(settings, f"positioner{i+1}", name)]: beyond the second
    positioner it creates an attribute that no code reads. *)
Definition setattr_positioner (i : nat) (name : option string) (s : Settings)
    : Settings :=
  match i with
  | 0 => {| positioner1 := name; positioner2 := positioner2 s;
            monitor := monitor s; detector := detector s;
            transmission := transmission s; pattern := pattern s |}
  | 1 => set_positioner2 name s
  | _ => s
  end.

(** [for i in range(len(positioner)): setattr(...)], from index [i] on. *)
Fixpoint stage_positioners (i : nat) (positioner : list (option string))
    (s : Settings) : Settings :=
  match positioner with
  | [] => s
  | name :: rest => stage_positioners (S i) rest (setattr_positioner i name s)
  end.

(** The settings after staging: [positioner] holds the names of the scanned
    motors ([None] for an absent one), [plot_names] is
    [counters.plot_names] and [counters_monitor] is [counters.monitor]. *)
Definition stage_settings (positioner : list (option string))
    (plot_names : list string) (counters_monitor : string) (s : Settings)
    : Settings :=
  let s1 := stage_positioners 0 positioner s in
  let s2 := match plot_names with
            | [] => s1
            | name :: _ =>
                {| positioner1 := positioner1 s1; positioner2 := positioner2 s1;
                   monitor := monitor s1; detector := Some name;
                   transmission := transmission s1; pattern := pattern s1 |}
            end in
  {| positioner1 := positioner1 s2; positioner2 := positioner2 s2;
     monitor := Some counters_monitor; detector := detector s2;
     transmission := transmission s2; pattern := pattern s2 |}.

(** The names of the configured positioners, first then second. *)
Definition positioner_names (s : Settings) : list string :=
  omap (fun pos => pos) [positioner1 s; positioner2 s].

(** The local that [_xas] finds unassigned first when the monitor or the
    detector is not configured. *)
Definition unbound_local (s : Settings) : string :=
  if transmission s
  then match monitor s with Some _ => "_det" | None => "_mon" end
  else match detector s with Some _ => "_mon" | None => "_det" end.

Section Model.
Context {num : Type} `{Numeric num}.

(** ** Documents *)

(** A value stored in a derived event or in a signal of the device: a
    numpy float produced by the reducer, or a Python [int] literal. *)
Inductive value :=
| PyFloat (x : num)
| PyInt (z : Z).

(** A raw event document: [doc["descriptor"]] and [doc["data"]]. *)
Record Event := {
  descriptor : string;
  data : gmap string num
}.

(** A raw descriptor document: [doc.get("name")] and the key set of
    [doc["data_keys"]]. *)
Record Descriptor := {
  desc_name : option string;
  desc_data_keys : gset string
}.

(** The dict returned by [process_xmcd]. *)
Record Derived := {
  d_data : gmap string value;
  d_descriptor : string
}.

Record StartDoc := {
  start_uid : string;
  motors : list string
}.

(** Documents handed to the parent class [LiveDispatcher]. *)
Inductive Document :=
| DocStart (doc : StartDoc)
| DocEvent (doc : Derived)
| DocStop (uid : string).

(** The 4-tuple [(positioner1, positioner2, xas, xmcd)]. *)
Definition dev_tuple : Type := value * value * value * value.

(** ** The [dichro] device *)

(** Observers are opaque callables; they are identified by a number and
    each invocation is recorded with the signal values it can read. *)
Definition callback := nat.

Record DichroDevice := {
  sig_positioner1 : value;
  sig_positioner2 : value;
  sig_xas : value;
  sig_xmcd : value;
  _callbacks : gmap string (list callback);
  _args_cache : gset string;
  invoked : list (callback * dev_tuple)
}.

(** [DichroDevice("", name="dichro")]: every [Component(Signal, value=0)]. *)
Definition DichroDevice_init : DichroDevice :=
  {| sig_positioner1 := PyInt 0;
     sig_positioner2 := PyInt 0;
     sig_xas := PyInt 0;
     sig_xmcd := PyInt 0;
     _callbacks := ∅;
     _args_cache := ∅;
     invoked := [] |}.

Definition readback (d : DichroDevice) : dev_tuple :=
  (sig_positioner1 d, sig_positioner2 d, sig_xas d, sig_xmcd d).

(** [BlueskyInterface.SUB_ACQ_DONE]. *)
Definition SUB_ACQ_DONE : string := "acq_done".

(** Modelled from the spec: ophyd's [OphydObject.subscribe] is not part of
    the sources.  It registers the observer under the given event type,
    after the ones already there, and with [run] set replays the last
    notification of that type, if there was one. *)
Definition base_subscribe (cb : callback) (event_type : string) (run : bool)
    (d : DichroDevice) : DichroDevice :=
  let registered := default [] (_callbacks d !! event_type) ++ [cb] in
  {| sig_positioner1 := sig_positioner1 d;
     sig_positioner2 := sig_positioner2 d;
     sig_xas := sig_xas d;
     sig_xmcd := sig_xmcd d;
     _callbacks := <[event_type := registered]> (_callbacks d);
     _args_cache := _args_cache d;
     invoked := if run && bool_decide (event_type ∈ _args_cache d)
                then invoked d ++ [(cb, readback d)]
                else invoked d |}.

(** Modelled from the spec: ophyd's [OphydObject._run_subs] is not part of
    the sources.  It calls, one after the other and in registration order,
    every observer registered under [sub_type], and remembers the call. *)
Definition _run_subs (sub_type : string) (d : DichroDevice) : DichroDevice :=
  {| sig_positioner1 := sig_positioner1 d;
     sig_positioner2 := sig_positioner2 d;
     sig_xas := sig_xas d;
     sig_xmcd := sig_xmcd d;
     _callbacks := _callbacks d;
     _args_cache := {[sub_type]} ∪ _args_cache d;
     invoked := invoked d ++
                map (fun cb => (cb, readback d))
                    (default [] (_callbacks d !! sub_type)) |}.

(** Modelled from the spec: ophyd's [Device.put] is not part of the
    sources.  It stores the fields of the tuple in the component signals. *)
Definition base_put (dev_t : dev_tuple) (d : DichroDevice) : DichroDevice :=
  let '(p1, p2, xas, xmcd) := dev_t in
  {| sig_positioner1 := p1;
     sig_positioner2 := p2;
     sig_xas := xas;
     sig_xmcd := xmcd;
     _callbacks := _callbacks d;
     _args_cache := _args_cache d;
     invoked := invoked d |}.

(** [DichroDevice.subscribe]: the [event_type] argument is not passed on. *)
Definition subscribe (cb : callback) (event_type : option string) (run : bool)
    (d : DichroDevice) : DichroDevice :=
  base_subscribe cb "acq_done" run d.

(** [DichroDevice.put]. *)
Definition put (dev_t : dev_tuple) (d : DichroDevice) : DichroDevice :=
  _run_subs SUB_ACQ_DONE (base_put dev_t d).

(** The observers registered for the notifications of [put]. *)
Definition subscribers (d : DichroDevice) : list callback :=
  default [] (_callbacks d !! SUB_ACQ_DONE).

(** ** The stream object *)

(** Modelled from the spec: streamz's [partition] node is not part of the
    sources.  It holds the window size it was built with and the events
    buffered so far. *)
Record Partition := {
  part_n : nat;
  part_buffer : list Event
}.

(** [in_node], [processor] and [out_node] are the three nodes of one
    chain [Source -> partition(n) -> map(process_xmcd) -> sink]; [start]
    builds the three together and [stop] sets the three to [None], so one
    optional field [nodes] stands for them.  [raw_descriptors] and
    [emitted] belong to the parent class [LiveDispatcher]: the descriptor
    cache, and the documents handed to it for re-emission. *)
Record DichroStream := {
  n : nat;
  nodes : option Partition;
  data_keys : option (list (string * string));
  settings : Settings;
  _trigger : bool;
  raw_descriptors : gmap string Descriptor;
  emitted : list Document
}.

(** [DichroStream.__init__]. *)
Definition DichroStream_init : DichroStream :=
  {| n := 4;
     nodes := None;
     data_keys := None;
     settings := Settings_default;
     _trigger := false;
     raw_descriptors := ∅;
     emitted := [] |}.

(** The mutable world: the stream, the module-level [dichro] device and
    the messages given to [logger.warning]. *)
Record World := {
  self : DichroStream;
  dichro : DichroDevice;
  warnings : list string
}.

Definition with_self (w : World) (st : DichroStream) : World :=
  {| self := st; dichro := dichro w; warnings := warnings w |}.

(** ** State and exceptions

    A Python statement transforms the world and either returns or raises;
    what was mutated before a [raise] stays mutated. *)
Definition M (A : Type) : Type := World -> World * result A.

#[export] Instance M_ret : MRet M := fun A a w => (w, Ok a).
#[export] Instance M_bind : MBind M := fun A B k m w =>
  match m w with
  | (w', Ok a) => k a w'
  | (w', Raise e) => (w', Raise e)
  end.

Definition raise {A} (e : exn) : M A := fun w => (w, Raise e).
Definition lift {A} (r : result A) : M A := fun w => (w, r).
Definition get_self : M DichroStream := fun w => (w, Ok (self w)).
Definition set_self (st : DichroStream) : M unit := fun w =>
  ({| self := st; dichro := dichro w; warnings := warnings w |}, Ok tt).
Definition dichro_put (dev_t : dev_tuple) : M unit := fun w =>
  ({| self := self w; dichro := put dev_t (dichro w);
      warnings := warnings w |}, Ok tt).
Definition logger_warning (msg : string) : M unit := fun w =>
  ({| self := self w; dichro := dichro w;
      warnings := warnings w ++ [msg] |}, Ok tt).

(** [d[key]] on a dict. *)
Definition getitem {V} (d : gmap string V) (key : string) : result V :=
  match d !! key with
  | Some v => Ok v
  | None => Raise (KeyError key)
  end.

(** ** The window reducer *)

(** [[evt["data"][value] for evt in cache]]. *)
Definition column (cache : list Event) (value : string) : result (list num) :=
  mapM (fun evt => getitem (data evt) value) cache.

(** The locals that the loop over [self.data_keys.items()] assigns. *)
Record Locals := {
  processed_evt : gmap string value;
  _mon : option (list num);
  _det : option (list num)
}.

Definition loop_body (cache : list Event) (loc : Locals)
    (item : string * string) : result Locals :=
  let '(key, val) := item in
  if str_in "positioner1" key then
    col ← column cache val;
    mret {| processed_evt := <[val := PyFloat (fmean col)]> (processed_evt loc);
            _mon := _mon loc; _det := _det loc |}
  else if str_in "positioner2" key then
    col ← column cache val;
    mret {| processed_evt := <[val := PyFloat (fmean col)]> (processed_evt loc);
            _mon := _mon loc; _det := _det loc |}
  else if str_in "monitor" key then
    col ← column cache val;
    mret {| processed_evt := processed_evt loc;
            _mon := Some col; _det := _det loc |}
  else if str_in "detector" key then
    col ← column cache val;
    mret {| processed_evt := processed_evt loc;
            _mon := _mon loc; _det := Some col |}
  else mret loc.

Fixpoint for_items (cache : list Event) (items : list (string * string))
    (loc : Locals) : result Locals :=
  match items with
  | [] => mret loc
  | item :: rest => loc' ← loop_body cache loc item; for_items cache rest loc'
  end.

(** Reading a local that may not have been assigned. *)
Definition local {A} (name : string) (v : option A) : result A :=
  match v with
  | Some a => Ok a
  | None => Raise (UnboundLocalError name)
  end.

(** Element-wise operation on two arrays built from the same window. *)
Definition zip_num (f : num -> num -> num) (xs ys : list num) : list num :=
  zip_with f xs ys.

(** [log(_mon / _det) if self.settings.transmission else _det / _mon];
    the operands are read left to right. *)
Definition absorption (s : Settings) (loc : Locals) : result (list num) :=
  if transmission s then
    m ← local "_mon" (_mon loc);
    d ← local "_det" (_det loc);
    mret (map flog (zip_num fdiv m d))
  else
    d ← local "_det" (_det loc);
    m ← local "_mon" (_mon loc);
    mret (zip_num fdiv d m).

(** [_xas * array(self.settings.pattern)] with numpy's broadcasting of
    one-dimensional arrays: equal lengths, or one side of length one. *)
Definition times_pattern (xas : list num) (pat : list Z) : result (list num) :=
  if Nat.eqb (length xas) (length pat) then
    mret (zip_with (fun a p => fmul a (of_int p)) xas pat)
  else match xas, pat with
       | _, [p] => mret (map (fun a => fmul a (of_int p)) xas)
       | [a], _ => mret (map (fun p => fmul a (of_int p)) pat)
       | _, _ => Raise (ValueError "operands could not be broadcast together")
       end.

(** The assignments of [_xas], [processed_evt["xas"]] and
    [processed_evt["xmcd"]] that follow the loop. *)
Definition xas_xmcd (s : Settings) (loc : Locals) : result (gmap string value) :=
  xas ← absorption s loc;
  let processed := <["xas" := PyFloat (fmean xas)]> (processed_evt loc) in
  prod ← times_pattern xas (pattern s);
  mret (<["xmcd" := PyFloat (fmul (fmean prod) (of_int 2))]> processed).

(** The branch taken when every configured channel is in the schema. *)
Definition full_event (s : Settings) (items : list (string * string))
    (cache : list Event) : result (gmap string value) :=
  loc ← for_items cache items
        {| processed_evt := ∅; _mon := None; _det := None |};
  xas_xmcd s loc.

(** The branch taken otherwise. *)
Definition zero_event (items : list (string * string)) : gmap string value :=
  let processed :=
    fold_left (fun acc item =>
                 if str_in "positioner" (fst item)
                 then <[snd item := PyInt 0]> acc else acc)
              items ∅ in
  <["xmcd" := PyInt 0]> (<["xas" := PyInt 0]> processed).

(** [key in self.raw_descriptors[desc_id]["data_keys"]] for every value of
    [self.data_keys]. *)
Definition keys_in_schema (descs : gmap string Descriptor) (desc_id : string)
    (items : list (string * string)) : result bool :=
  found ← mapM (fun item => desc ← getitem descs desc_id;
                            mret (bool_decide (snd item ∈ desc_data_keys desc)))
               items;
  mret (forallb (fun b => b) found).

(** The tuple sent to the device. *)
Definition tuple_entry (s : Settings) (processed : gmap string value)
    (key : string) : result value :=
  match getattr s key with
  | Some pos => getitem processed pos
  | None => Ok (PyFloat nan)
  end.

Definition dichro_out (s : Settings) (processed : gmap string value)
    : result dev_tuple :=
  p1 ← tuple_entry s processed "positioner1";
  p2 ← tuple_entry s processed "positioner2";
  xas ← getitem processed "xas";
  xmcd ← getitem processed "xmcd";
  mret (p1, p2, xas, xmcd).

Definition mixed_bundle : exn :=
  Exception "The events in this bundle are from differentconfigurations!".

Definition schema_warning : string :=
  "The input data keys do not match entries in the database. Data is being recorded, but the plot will not be generated.".

(** [process_xmcd], the closure defined in [DichroStream.start]. *)
Definition process_xmcd (cache : list Event) : M Derived :=
  desc_id ← lift (match cache with
                  | evt :: _ => Ok (descriptor evt)
                  | [] => Raise IndexError
                  end);
  if negb (forallb (fun evt => String.eqb desc_id (descriptor evt)) cache)
  then raise mixed_bundle
  else
    st ← get_self;
    items ← lift (match data_keys st with
                  | Some items => Ok items
                  | None => Raise (AttributeError "values")
                  end);
    ok ← lift (keys_in_schema (raw_descriptors st) desc_id items);
    processed ← (if ok : bool
                 then lift (full_event (settings st) items cache)
                 else logger_warning schema_warning;;
                      mret (zero_event items));
    st' ← get_self;
    out ← lift (dichro_out (settings st') processed);
    dichro_put out;;
    mret {| d_data := processed; d_descriptor := desc_id |}.

(** ** The lifecycle callbacks *)

Definition with_nodes (st : DichroStream) (p : option Partition) : DichroStream :=
  {| n := n st; nodes := p; data_keys := data_keys st;
     settings := settings st; _trigger := _trigger st;
     raw_descriptors := raw_descriptors st; emitted := emitted st |}.

Definition with_emitted (st : DichroStream) (docs : list Document) : DichroStream :=
  {| n := n st; nodes := nodes st; data_keys := data_keys st;
     settings := settings st; _trigger := _trigger st;
     raw_descriptors := raw_descriptors st; emitted := docs |}.

(** Modelled from the spec: bluesky's [LiveDispatcher] is not part of the
    sources.  [start], [process_event] and [stop] re-emit the document
    they are given to the subscribers of the stream, [descriptor] caches
    the raw descriptor under its uid, and [stop] empties that cache. *)
Definition super_start (doc : StartDoc) : M unit :=
  st ← get_self; set_self (with_emitted st (emitted st ++ [DocStart doc])).

Definition process_event (doc : Derived) : M unit :=
  st ← get_self; set_self (with_emitted st (emitted st ++ [DocEvent doc])).

Definition super_stop (uid : string) : M unit :=
  st ← get_self;
  set_self {| n := n st; nodes := nodes st; data_keys := data_keys st;
              settings := settings st; _trigger := _trigger st;
              raw_descriptors := ∅;
              emitted := emitted st ++ [DocStop uid] |}.

Definition descriptor_doc (uid : string) (doc : Descriptor) : M unit :=
  st ← get_self;
  set_self {| n := n st; nodes := nodes st; data_keys := data_keys st;
              settings := settings st; _trigger := _trigger st;
              raw_descriptors := <[uid := doc]> (raw_descriptors st);
              emitted := emitted st |}.

(** Modelled from the spec: streamz's [partition.update] is not part of
    the sources.  The element is appended to the buffer; when the buffer
    holds [n] elements it is replaced by an empty one and its content is
    sent downstream as one tuple. *)
Definition partition_update (p : Partition) (x : Event)
    : Partition * option (list Event) :=
  let buffer := part_buffer p ++ [x] in
  if Nat.eqb (length buffer) (part_n p)
  then ({| part_n := part_n p; part_buffer := [] |}, Some buffer)
  else ({| part_n := part_n p; part_buffer := buffer |}, None).

(** [self.in_node.emit(doc)]: the partition node first, then, for a full
    window, [map(process_xmcd)] and [sink(self.process_event)]. *)
Definition emit (doc : Event) : M unit :=
  st ← get_self;
  match nodes st with
  | None => raise (AttributeError "emit")
  | Some p =>
      let '(p', window) := partition_update p doc in
      set_self (with_nodes st (Some p'));;
      match window with
      | Some cache => derived ← process_xmcd cache; process_event derived
      | None => mret tt
      end
  end.

(** [DichroStream.start]. *)
Definition start (doc : StartDoc) : M unit :=
  st ← get_self;
  let size := length (pattern (settings st)) in
  set_self {| n := size;
              nodes := Some {| part_n := size; part_buffer := [] |};
              data_keys := Some (get_keys (settings st));
              settings := settings st; _trigger := _trigger st;
              raw_descriptors := raw_descriptors st;
              emitted := emitted st |};;
  super_start {| start_uid := start_uid doc;
                 motors := omap (fun pos => pos)
                                [positioner1 (settings st);
                                 positioner2 (settings st)] |}.

(** [DichroStream.event]. *)
Definition event (doc : Event) : M unit :=
  st ← get_self;
  desc ← lift (getitem (raw_descriptors st) (descriptor doc));
  if bool_decide (desc_name desc = Some "primary")
  then emit doc
  else mret tt.

(** [DichroStream.stop]. *)
Definition stop (uid : string) : M unit :=
  st ← get_self;
  set_self {| n := n st;
              nodes := None;
              data_keys := None;
              settings := {| positioner1 := None;
                             positioner2 := None;
                             monitor := monitor (settings st);
                             detector := detector (settings st);
                             transmission := transmission (settings st);
                             pattern := pattern (settings st) |};
              _trigger := false;
              raw_descriptors := raw_descriptors st;
              emitted := emitted st |};;
  super_stop uid.

(** Delivering the descriptors of a run, through the inherited
    [descriptor] callback. *)
Fixpoint descriptor_docs (docs : list (string * Descriptor)) : M unit :=
  match docs with
  | [] => mret tt
  | (uid, doc) :: rest => descriptor_doc uid doc;; descriptor_docs rest
  end.

(** Delivering a sequence of events, one call of [event] after the other;
    an exception ends the delivery. *)
Fixpoint events (docs : list Event) : M unit :=
  match docs with
  | [] => mret tt
  | doc :: rest => event doc;; events rest
  end.

(** The contiguous groups of [size] elements of [buf ++ docs], in order,
    and what is left over. *)
Fixpoint windows (size : nat) (buf docs : list Event) : list (list Event) :=
  match docs with
  | [] => []
  | doc :: rest =>
      if Nat.eqb (length (buf ++ [doc])) size
      then (buf ++ [doc]) :: windows size [] rest
      else windows size (buf ++ [doc]) rest
  end.

Fixpoint leftover (size : nat) (buf docs : list Event) : list Event :=
  match docs with
  | [] => buf
  | doc :: rest =>
      if Nat.eqb (length (buf ++ [doc])) size
      then leftover size [] rest
      else leftover size (buf ++ [doc]) rest
  end.

(** ** Vocabulary of the statements *)

(** The readings of one channel over a window, in window order. *)
Definition readings (cache : list Event) (channel : string) : list num :=
  omap (fun evt => data evt !! channel) cache.

(** The per-event absorption of a window, from the monitor readings [ms]
    and the detector readings [ds]. *)
Definition absorption_of (transm : bool) (ms ds : list num) : list num :=
  if transm then map flog (zip_with fdiv ms ds) else zip_with fdiv ds ms.

(** The averaged positions stored by the loop over the channel map. *)
Definition positions (s : Settings) (cache : list Event) : gmap string value :=
  let first :=
    match positioner1 s with
    | Some v => <[v := PyFloat (fmean (readings cache v))]> ∅
    | None => ∅
    end in
  match positioner2 s with
  | Some v => <[v := PyFloat (fmean (readings cache v))]> first
  | None => first
  end.

(** The zeroed positions stored when the schema does not match. *)
Definition zero_positions (s : Settings) : gmap string value :=
  let first :=
    match positioner1 s with
    | Some v => <[v := PyInt 0]> ∅
    | None => ∅
    end in
  match positioner2 s with
  | Some v => <[v := PyInt 0]> first
  | None => first
  end.

(** The entry of the published tuple for one positioner. *)
Definition entry_of (pos : option string) (processed : gmap string value)
    : value :=
  match pos with
  | Some channel => default (PyFloat nan) (processed !! channel)
  | None => PyFloat nan
  end.

(** Two stream objects of the same run: the channel map, the settings and
    the descriptor cache agree. *)
Definition same_run (st st' : DichroStream) : Prop :=
  data_keys st' = data_keys st ∧
  settings st' = settings st ∧
  raw_descriptors st' = raw_descriptors st.

(** The event belongs to a cached descriptor named "primary". *)
Definition primary (st : DichroStream) (doc : Event) : Prop :=
  ∃ desc, raw_descriptors st !! descriptor doc = Some desc ∧
          desc_name desc = Some "primary".

(** The stream object of a run started with [positioner2] set to [pos]. *)
Definition with_positioner2 (pos : option string) (st : DichroStream)
    : DichroStream :=
  let s := set_positioner2 pos (settings st) in
  {| n := n st; nodes := nodes st; data_keys := Some (get_keys s);
     settings := s; _trigger := _trigger st;
     raw_descriptors := raw_descriptors st; emitted := emitted st |}.

(** Every configured channel has a reading in every event of the window. *)
Definition readable (s : Settings) (cache : list Event) : Prop :=
  Forall (fun item => Forall (fun evt => is_Some (data evt !! snd item)) cache)
         (get_keys s).

(** A raw event carries a reading for every key of its descriptor. *)
Definition conforms (desc : Descriptor) (evt : Event) : Prop :=
  desc_data_keys desc ⊆ dom (data evt).

(** The stream object after [settings.pattern = value] (the setter of
    [pr_setup.dichro_steps]) in the middle of a run. *)
Definition with_pattern (value : list Z) (st : DichroStream) : DichroStream :=
  {| n := n st; nodes := nodes st; data_keys := data_keys st;
     settings := {| positioner1 := positioner1 (settings st);
                    positioner2 := positioner2 (settings st);
                    monitor := monitor (settings st);
                    detector := detector (settings st);
                    transmission := transmission (settings st);
                    pattern := value |};
     _trigger := _trigger st;
     raw_descriptors := raw_descriptors st; emitted := emitted st |}.

(** The value published for a positioner by a matching window. *)
Definition averaged (cache : list Event) (pos : option string) : value :=
  match pos with
  | Some channel => PyFloat (fmean (readings cache channel))
  | None => PyFloat nan
  end.

(** The value published for a positioner by a window that does not match. *)
Definition zeroed (pos : option string) : value :=
  match pos with
  | Some _ => PyInt 0
  | None => PyFloat nan
  end.

(** Successive publications. *)
Definition puts (ts : list dev_tuple) (d : DichroDevice) : DichroDevice :=
  fold_left (fun d t => put t d) ts d.

(** The notifications of successive publications to the observers [subs]. *)
Definition notifications (subs : list callback) (ts : list dev_tuple)
    : list (callback * dev_tuple) :=
  flat_map (fun t => map (fun cb => (cb, t)) subs) ts.

End Model.

Arguments value : clear implicits.
Arguments Event : clear implicits.
Arguments Derived : clear implicits.
Arguments Document : clear implicits.
Arguments dev_tuple : clear implicits.
Arguments DichroDevice : clear implicits.
Arguments Partition : clear implicits.
Arguments DichroStream : clear implicits.
Arguments World : clear implicits.
Arguments Locals : clear implicits.
Arguments M : clear implicits.

(** ** Sample runs

    A run of the default configuration over the exact arithmetic: the
    descriptor of the primary stream carries the energy, the monitor and
    the detector; a second descriptor of the same stream stands for a
    change of configuration, and a third one belongs to another stream. *)
Module Samples.
Import RealArith.

Definition reading (energy i0 i1 : Z) : gmap string xreal :=
  <["energy" := of_Z energy]>
    (<["magnet" := of_Z 2]>
       (<["4idhI0" := of_Z i0]>
          (<["4idhI1" := of_Z i1]> ∅))).

Definition schema : gset string :=
  {["energy"; "magnet"; "4idhI0"; "4idhI1"]}.

Definition desc_primary : Descriptor :=
  {| desc_name := Some "primary"; desc_data_keys := schema |}.

Definition desc_reconfigured : Descriptor :=
  {| desc_name := Some "primary"; desc_data_keys := schema |}.

Definition desc_baseline : Descriptor :=
  {| desc_name := Some "baseline"; desc_data_keys := schema |}.

Definition ev (uid : string) (energy i0 i1 : Z) : Event xreal :=
  {| descriptor := uid; data := reading energy i0 i1 |}.

Definition e1 : Event xreal := ev "d1" 7000 100 50.
Definition e2 : Event xreal := ev "d1" 7000 100 55.
Definition e3 : Event xreal := ev "d1" 7000 100 55.
Definition e4 : Event xreal := ev "d1" 7000 100 50.
Definition e_other : Event xreal := ev "d2" 7000 100 50.
Definition e_baseline : Event xreal := ev "b1" 7000 100 50.

Definition window1 : list (Event xreal) := [e1; e2; e3; e4].

Definition nine_events : list (Event xreal) :=
  [e1; e2; e3; e4; e1; e2; e3; e4; e1].

Definition descriptors : list (string * Descriptor) :=
  [("d1", desc_primary); ("d2", desc_reconfigured); ("b1", desc_baseline)].

(** A fresh stream with the given settings. *)
Definition stream_of (s : Settings) : DichroStream xreal :=
  {| n := 4; nodes := None; data_keys := None;
     settings := s; _trigger := false;
     raw_descriptors := ∅; emitted := [] |}.

(** The world before a run: the stream and a device with two observers. *)
Definition world_of (s : Settings) : World xreal :=
  {| self := stream_of s;
     dichro := subscribe 2 (Some "value") false
                 (subscribe 1 None false DichroDevice_init);
     warnings := [] |}.

Definition start_doc : StartDoc := {| start_uid := "run1"; motors := [] |}.

(** The beginning of a run: the start document, then the descriptors. *)
Definition begin_run (w : World xreal) : World xreal :=
  (descriptor_docs descriptors (start start_doc w).1).1.

Definition world0 : World xreal := world_of Settings_default.

(** The world after [start] and the descriptors. *)
Definition world1 : World xreal := begin_run world0.

(** The same, three events into a window. *)
Definition world3 : World xreal := (events [e1; e2; e3] world1).1.

Definition buffer3 : Partition xreal :=
  {| part_n := 4; part_buffer := [e1; e2; e3] |}.

(** A run whose monitor is not recorded in the primary stream. *)
Definition world_unmatched : World xreal :=
  begin_run
    (world_of {| positioner1 := Some "energy"; positioner2 := None;
                  monitor := Some "missing"; detector := Some "4idhI1";
                  transmission := true;
                  pattern := [1; -1; -1; 1]%Z |}).

(** A fluorescence run: the absorption is [D / M]. *)
Definition world_fluo : World xreal :=
  begin_run
    (world_of {| positioner1 := Some "energy"; positioner2 := None;
                  monitor := Some "4idhI0"; detector := Some "4idhI1";
                  transmission := false;
                  pattern := [1; -1; -1; 1]%Z |}).

(** A run with two polarization states per window. *)
Definition world_pairs : World xreal :=
  begin_run
    (world_of {| positioner1 := Some "energy"; positioner2 := None;
                  monitor := Some "4idhI0"; detector := Some "4idhI1";
                  transmission := true;
                  pattern := [1; -1]%Z |}).

(** A run whose monitor is not configured. *)
Definition world_no_monitor : World xreal :=
  begin_run
    (world_of {| positioner1 := Some "energy"; positioner2 := None;
                 monitor := None; detector := Some "4idhI1";
                 transmission := true;
                 pattern := [1; -1; -1; 1]%Z |}).

(** The default run after the pattern was set to two states while the
    windows still hold four events. *)
Definition world_repatterned : World xreal :=
  with_self world1 (with_pattern [1; -1]%Z (self world1)).

(** A stream that has cached descriptors but was not started. *)
Definition world_idle : World xreal := (descriptor_docs descriptors world0).1.

(** Eight primary events whose fourth one comes from the reconfigured
    descriptor: the first window mixes two descriptor ids. *)
Definition mixed_events : list (Event xreal) :=
  [e1; e2; e3; e_other; e1; e2; e3; e4].


(** What a returning call of the reducer returned. *)
Definition returned (r : World xreal * result (Derived xreal)) : Derived xreal :=
  match r.2 with
  | Ok derived => derived
  | Raise _ => {| d_data := ∅; d_descriptor := "" |}
  end.

(** The number a published value stands for; NaN stands for none. *)
Definition to_R (v : value xreal) : option Rdefinitions.R :=
  match v with
  | PyFloat (Real r) => Some r
  | PyFloat NaN => None
  | PyInt z => Some (Rdefinitions.IZR z)
  end.

End Samples.

(** * Properties *)

Section Properties.
Context {num : Type} `{Numeric num}.

Ltac unfold_M :=
  unfold mbind, mret, M_bind, M_ret, result_bind, result_ret,
    lift, raise, get_self, set_self, dichro_put, logger_warning,
    super_start, super_stop, process_event in *.

(** ** [Settings.get_keys] *)

Lemma get_keys_unfold (s : Settings) :
  get_keys s =
    match positioner1 s with Some v => [("positioner1", v)] | None => [] end ++
    match positioner2 s with Some v => [("positioner2", v)] | None => [] end ++
    match monitor s with Some v => [("monitor", v)] | None => [] end ++
    match detector s with Some v => [("detector", v)] | None => [] end.
Proof.
  unfold get_keys, getattr; simpl.
  destruct (positioner1 s), (positioner2 s), (monitor s), (detector s);
    reflexivity.
Qed.

(** ** The device *)

Lemma subscribers_subscribe cb event_type run (d : DichroDevice num) :
  subscribers (subscribe cb event_type run d) = subscribers d ++ [cb].
Proof.
  unfold subscribers, subscribe, base_subscribe, SUB_ACQ_DONE; simpl.
  by rewrite lookup_insert_eq.
Qed.

Lemma readback_base_put t (d : DichroDevice num) : readback (base_put t d) = t.
Proof. destruct t as [[[p1 p2] xas] xmcd]. reflexivity. Qed.

Lemma invoked_put t (d : DichroDevice num) :
  invoked (put t d) = invoked d ++ map (fun cb => (cb, t)) (subscribers d).
Proof.
  unfold put, _run_subs; simpl. rewrite readback_base_put.
  destruct t as [[[p1 p2] xas] xmcd]. reflexivity.
Qed.

Lemma subscribers_fold (calls : list (callback * option string * bool))
    (d : DichroDevice num) :
  subscribers
    (fold_left (fun d c => subscribe (fst (fst c)) (snd (fst c)) (snd c) d)
               calls d)
  = subscribers d ++ map (fun c => fst (fst c)) calls.
Proof.
  revert d. induction calls as [|c calls IH]; intros d; simpl.
  - by rewrite app_nil_r.
  - rewrite IH, subscribers_subscribe, <- app_assoc. reflexivity.
Qed.

(** ** The reducer: frame and failure *)

Lemma forallb_descriptor_false (desc_id : string) (cache : list (Event num)) :
  (∃ evt, evt ∈ cache ∧ descriptor evt ≠ desc_id) →
  forallb (fun evt => String.eqb desc_id (descriptor evt)) cache = false.
Proof.
  intros (evt & Hin & Hne).
  destruct (forallb _ cache) eqn:E; [|reflexivity].
  rewrite forallb_forall in E.
  apply list_elem_of_In, E, String.eqb_eq in Hin. congruence.
Qed.

Lemma forallb_descriptor_true (desc_id : string) (cache : list (Event num)) :
  Forall (fun evt => descriptor evt = desc_id) cache →
  forallb (fun evt => String.eqb desc_id (descriptor evt)) cache = true.
Proof.
  intros Hall. apply forallb_forall. intros evt Hin.
  rewrite Forall_forall in Hall.
  apply String.eqb_eq. symmetry. apply Hall. by apply list_elem_of_In.
Qed.

(** A window with two different descriptor ids has an event whose id is
    not the one of the first event. *)
Lemma mixed_window_head (cache : list (Event num)) e1 e2 :
  e1 ∈ cache → e2 ∈ cache → descriptor e1 ≠ descriptor e2 →
  ∃ e0 rest, cache = e0 :: rest ∧
             ∃ evt, evt ∈ cache ∧ descriptor evt ≠ descriptor e0.
Proof.
  intros H1 H2 Hne. destruct cache as [|e0 rest]; [by inversion H1|].
  exists e0, rest. split; [reflexivity|].
  destruct (decide (descriptor e1 = descriptor e0)) as [E|E].
  - exists e2. split; [done|congruence].
  - exists e1. by split.
Qed.

Lemma process_xmcd_mixed (cache : list (Event num)) e1 e2 (w : World num) :
  e1 ∈ cache → e2 ∈ cache → descriptor e1 ≠ descriptor e2 →
  process_xmcd cache w = (w, Raise mixed_bundle).
Proof.
  intros H1 H2 Hne.
  destruct (mixed_window_head cache e1 e2 H1 H2 Hne)
    as (e0 & rest & -> & Hevt).
  unfold process_xmcd. unfold_M.
  rewrite (forallb_descriptor_false _ _ Hevt). reflexivity.
Qed.

(** The reducer never touches the stream object. *)
Lemma process_xmcd_self (cache : list (Event num)) (w : World num) :
  self (process_xmcd cache w).1 = self w.
Proof.
  unfold process_xmcd. unfold_M.
  repeat (case_match; simpl in *; simplify_eq; try reflexivity).
Qed.

(** ** The reducer: the pure steps *)

Lemma mapM_result_cons {A B} (f : A → result B) (x : A) (l : list A) :
  mapM f (x :: l) =
    match f x with
    | Ok y => match mapM f l with
              | Ok k => Ok (y :: k)
              | Raise e => Raise e
              end
    | Raise e => Raise e
    end.
Proof. reflexivity. Qed.

Lemma column_readings (cache : list (Event num)) (channel : string) :
  Forall (fun evt => is_Some (data evt !! channel)) cache →
  column cache channel = Ok (readings cache channel) ∧
  length (readings cache channel) = length cache.
Proof.
  unfold column, readings.
  induction 1 as [|evt cache [x Hx] _ [IH1 IH2]]; [done|].
  rewrite mapM_result_cons, IH1. unfold getitem. rewrite Hx.
  cbn [omap list_omap]. rewrite Hx. split; [reflexivity|].
  cbn [length]. by rewrite IH2.
Qed.

Lemma conforms_reading desc (cache : list (Event num)) (channel : string) :
  Forall (conforms desc) cache → channel ∈ desc_data_keys desc →
  Forall (fun evt => is_Some (data evt !! channel)) cache.
Proof.
  intros Hall Hin. eapply Forall_impl; [exact Hall|].
  intros evt Hc. apply elem_of_dom. by apply Hc.
Qed.

Lemma keys_in_schema_found descs desc_id desc (items : list (string * string)) :
  descs !! desc_id = Some desc →
  keys_in_schema descs desc_id items =
    Ok (forallb (fun item => bool_decide (snd item ∈ desc_data_keys desc)) items).
Proof.
  intros Hd. unfold keys_in_schema.
  assert (mapM (fun item : string * string =>
                  desc ← getitem descs desc_id;
                  mret (bool_decide (snd item ∈ desc_data_keys desc))) items
          = Ok (map (fun item => bool_decide (snd item ∈ desc_data_keys desc))
                    items)) as ->.
  { induction items as [|item items IH]; [done|].
    rewrite mapM_result_cons, IH. unfold getitem. by rewrite Hd. }
  simpl. unfold mret, result_ret. f_equal.
  induction items as [|item items IH]; [done|]. simpl. by rewrite IH.
Qed.

Lemma forallb_schema_true desc (items : list (string * string)) :
  Forall (fun item => snd item ∈ desc_data_keys desc) items →
  forallb (fun item => bool_decide (snd item ∈ desc_data_keys desc)) items = true.
Proof.
  intros Hall. apply forallb_forall. intros item Hin.
  rewrite Forall_forall in Hall. apply bool_decide_eq_true, Hall.
  by apply list_elem_of_In.
Qed.

Lemma forallb_schema_false desc (items : list (string * string)) item :
  item ∈ items → snd item ∉ desc_data_keys desc →
  forallb (fun item => bool_decide (snd item ∈ desc_data_keys desc)) items = false.
Proof.
  intros Hin Hnot.
  destruct (forallb _ items) eqn:E; [|reflexivity].
  rewrite forallb_forall in E.
  apply list_elem_of_In, E, bool_decide_eq_true in Hin. done.
Qed.

Lemma loop_body_positioner1 (cache : list (Event num)) loc v col :
  column cache v = Ok col →
  loop_body cache loc ("positioner1", v) =
    Ok {| processed_evt := <[v := PyFloat (fmean col)]> (processed_evt loc);
          _mon := _mon loc; _det := _det loc |}.
Proof. intros Hc. unfold loop_body. simpl. by rewrite Hc. Qed.

Lemma loop_body_positioner2 (cache : list (Event num)) loc v col :
  column cache v = Ok col →
  loop_body cache loc ("positioner2", v) =
    Ok {| processed_evt := <[v := PyFloat (fmean col)]> (processed_evt loc);
          _mon := _mon loc; _det := _det loc |}.
Proof. intros Hc. unfold loop_body. simpl. by rewrite Hc. Qed.

Lemma loop_body_monitor (cache : list (Event num)) loc v col :
  column cache v = Ok col →
  loop_body cache loc ("monitor", v) =
    Ok {| processed_evt := processed_evt loc;
          _mon := Some col; _det := _det loc |}.
Proof. intros Hc. unfold loop_body. simpl. by rewrite Hc. Qed.

Lemma loop_body_detector (cache : list (Event num)) loc v col :
  column cache v = Ok col →
  loop_body cache loc ("detector", v) =
    Ok {| processed_evt := processed_evt loc;
          _mon := _mon loc; _det := Some col |}.
Proof. intros Hc. unfold loop_body. simpl. by rewrite Hc. Qed.

Lemma for_items_cons (cache : list (Event num)) item rest loc loc' :
  loop_body cache loc item = Ok loc' →
  for_items cache (item :: rest) loc = for_items cache rest loc'.
Proof. intros Hb. cbn [for_items]. by rewrite Hb. Qed.

Lemma for_items_get_keys (s : Settings) (cache : list (Event num)) :
  readable s cache →
  for_items cache (get_keys s)
            {| processed_evt := ∅; _mon := None; _det := None |}
  = Ok {| processed_evt := positions s cache;
          _mon := readings cache <$> monitor s;
          _det := readings cache <$> detector s |}.
Proof.
  unfold readable, positions. rewrite get_keys_unfold.
  destruct (positioner1 s) as [p1|], (positioner2 s) as [p2|],
           (monitor s) as [mon|], (detector s) as [det|];
    cbn [app fmap option_fmap option_map]; intros Hall;
    repeat match goal with
           | Hall : Forall _ (_ :: _) |- _ =>
               let Hr := fresh "Hr" in
               apply Forall_cons_1 in Hall as [Hr Hall];
               apply column_readings in Hr as [Hr _]; cbn [snd] in Hr
           end;
    repeat first
      [ erewrite for_items_cons by (by apply loop_body_positioner1)
      | erewrite for_items_cons by (by apply loop_body_positioner2)
      | erewrite for_items_cons by (by apply loop_body_monitor)
      | erewrite for_items_cons by (by apply loop_body_detector) ];
    reflexivity.
Qed.

Lemma get_keys_monitor (s : Settings) mon :
  monitor s = Some mon → ("monitor", mon) ∈ get_keys s.
Proof.
  intros Hm. rewrite get_keys_unfold, Hm.
  rewrite !elem_of_app. right; right; left. apply list_elem_of_here.
Qed.

Lemma get_keys_detector (s : Settings) det :
  detector s = Some det → ("detector", det) ∈ get_keys s.
Proof.
  intros Hd. rewrite get_keys_unfold, Hd.
  rewrite !elem_of_app. right; right; right. apply list_elem_of_here.
Qed.

Lemma get_keys_positioner1 (s : Settings) pos :
  positioner1 s = Some pos → ("positioner1", pos) ∈ get_keys s.
Proof.
  intros Hp. rewrite get_keys_unfold, Hp.
  rewrite !elem_of_app. left. apply list_elem_of_here.
Qed.

Lemma get_keys_positioner2 (s : Settings) pos :
  positioner2 s = Some pos → ("positioner2", pos) ∈ get_keys s.
Proof.
  intros Hp. rewrite get_keys_unfold, Hp.
  rewrite !elem_of_app. right; left. apply list_elem_of_here.
Qed.

Lemma readable_length (s : Settings) (cache : list (Event num)) key channel :
  readable s cache → (key, channel) ∈ get_keys s →
  length (readings cache channel) = length cache.
Proof.
  unfold readable. rewrite Forall_forall. intros Hall Hin.
  by apply column_readings, (Hall _ Hin).
Qed.

Lemma conforms_readable (s : Settings) desc (cache : list (Event num)) :
  Forall (fun item => snd item ∈ desc_data_keys desc) (get_keys s) →
  Forall (conforms desc) cache →
  readable s cache.
Proof.
  intros Hkeys Hconf. unfold readable.
  eapply Forall_impl; [exact Hkeys|].
  intros item Hin. by eapply conforms_reading.
Qed.

Lemma length_absorption_of transm (ms ds : list num) :
  length ms = length ds →
  length (absorption_of transm ms ds) = length ms.
Proof.
  intros Hl. unfold absorption_of. destruct transm.
  - rewrite length_map, length_zip_with. lia.
  - rewrite length_zip_with. lia.
Qed.

Lemma full_event_get_keys (s : Settings) (cache : list (Event num)) mon det :
  readable s cache →
  monitor s = Some mon → detector s = Some det →
  length cache = length (pattern s) →
  let A := absorption_of (transmission s)
                         (readings cache mon) (readings cache det) in
  full_event s (get_keys s) cache =
    Ok (<["xmcd" := PyFloat (fmul (fmean (zip_with (fun a p => fmul a (of_int p))
                                                   A (pattern s)))
                                  (of_int 2))]>
          (<["xas" := PyFloat (fmean A)]> (positions s cache))).
Proof.
  intros Hr Hm Hd Hlen A. unfold full_event, xas_xmcd.
  rewrite (for_items_get_keys _ _ Hr), Hm, Hd.
  cbn [mbind result_bind fmap option_fmap option_map].
  assert (absorption s
            {| processed_evt := positions s cache;
               _mon := Some (readings cache mon);
               _det := Some (readings cache det) |} = Ok A) as ->.
  { unfold absorption, A, absorption_of. by destruct (transmission s). }
  cbn [processed_evt]. unfold times_pattern.
  assert (length A = length (pattern s)) as HA.
  { unfold A. rewrite length_absorption_of.
    - rewrite <- Hlen. eapply readable_length; [done|by apply get_keys_monitor].
    - rewrite (readable_length s cache "monitor" mon Hr (get_keys_monitor _ _ Hm)).
      by rewrite (readable_length s cache "detector" det Hr
                    (get_keys_detector _ _ Hd)). }
  cbn [mbind result_bind]. rewrite HA, Nat.eqb_refl. reflexivity.
Qed.

Lemma zero_event_get_keys (s : Settings) :
  zero_event (num:=num) (get_keys s) =
    <["xmcd" := PyInt 0]> (<["xas" := PyInt 0]> (zero_positions s)).
Proof.
  unfold zero_event, zero_positions. rewrite get_keys_unfold.
  destruct (positioner1 s), (positioner2 s), (monitor s), (detector s);
    reflexivity.
Qed.

Lemma positions_lookup (s : Settings) (cache : list (Event num)) pos :
  positioner1 s = Some pos ∨ positioner2 s = Some pos →
  positions s cache !! pos = Some (PyFloat (fmean (readings cache pos))).
Proof.
  unfold positions. intros [Hp|Hp]; rewrite Hp.
  - destruct (positioner2 s) as [p2|]; [|by rewrite lookup_insert_eq].
    destruct (decide (p2 = pos)) as [->|Hne].
    + by rewrite lookup_insert_eq.
    + by rewrite lookup_insert_ne, lookup_insert_eq.
  - by rewrite lookup_insert_eq.
Qed.

Lemma zero_positions_lookup (s : Settings) pos :
  positioner1 s = Some pos ∨ positioner2 s = Some pos →
  zero_positions (num:=num) s !! pos = Some (PyInt 0).
Proof.
  unfold zero_positions. intros [Hp|Hp]; rewrite Hp.
  - destruct (positioner2 s) as [p2|]; [|by rewrite lookup_insert_eq].
    destruct (decide (p2 = pos)) as [->|Hne].
    + by rewrite lookup_insert_eq.
    + by rewrite lookup_insert_ne, lookup_insert_eq.
  - by rewrite lookup_insert_eq.
Qed.

(** After the two final assignments a key that was present is present. *)
Lemma lookup_final (m : gmap string (value num)) xas xmcd key :
  is_Some (m !! key) →
  is_Some ((<["xmcd" := xmcd]> (<["xas" := xas]> m)) !! key).
Proof.
  intros Hk.
  destruct (decide ("xmcd" = key)) as [<-|?]; [by rewrite lookup_insert_eq|].
  rewrite lookup_insert_ne by done.
  destruct (decide ("xas" = key)) as [<-|?]; [by rewrite lookup_insert_eq|].
  by rewrite lookup_insert_ne.
Qed.

Lemma lookup_final_xas (m : gmap string (value num)) xas xmcd :
  (<["xmcd" := xmcd]> (<["xas" := xas]> m)) !! "xas" = Some xas.
Proof. by rewrite lookup_insert_ne, lookup_insert_eq. Qed.

Lemma lookup_final_xmcd (m : gmap string (value num)) xas xmcd :
  (<["xmcd" := xmcd]> (<["xas" := xas]> m)) !! "xmcd" = Some xmcd.
Proof. by rewrite lookup_insert_eq. Qed.

Lemma tuple_entry_ok (s : Settings) (processed : gmap string (value num)) :
  (∀ pos, positioner1 s = Some pos → is_Some (processed !! pos)) →
  (∀ pos, positioner2 s = Some pos → is_Some (processed !! pos)) →
  tuple_entry s processed "positioner1" = Ok (entry_of (positioner1 s) processed) ∧
  tuple_entry s processed "positioner2" = Ok (entry_of (positioner2 s) processed).
Proof.
  intros H1 H2. unfold tuple_entry, getattr, entry_of, getitem. simpl. split.
  - destruct (positioner1 s) as [pos|]; [|done].
    by destruct (H1 pos eq_refl) as [v ->].
  - destruct (positioner2 s) as [pos|]; [|done].
    by destruct (H2 pos eq_refl) as [v ->].
Qed.

Lemma dichro_out_ok (s : Settings) (processed : gmap string (value num)) xas xmcd :
  (∀ pos, positioner1 s = Some pos → is_Some (processed !! pos)) →
  (∀ pos, positioner2 s = Some pos → is_Some (processed !! pos)) →
  processed !! "xas" = Some xas →
  processed !! "xmcd" = Some xmcd →
  dichro_out s processed =
    Ok (entry_of (positioner1 s) processed,
        entry_of (positioner2 s) processed, xas, xmcd).
Proof.
  intros H1 H2 Hxas Hxmcd. unfold dichro_out.
  destruct (tuple_entry_ok s processed H1 H2) as [-> ->].
  unfold getitem. rewrite Hxas, Hxmcd. reflexivity.
Qed.

(** The outcome of [process_xmcd] from the outcome of its pure steps. *)
Lemma process_xmcd_run (cache : list (Event num)) (w : World num)
    desc_id desc items processed out :
  cache ≠ [] →
  Forall (fun evt => descriptor evt = desc_id) cache →
  data_keys (self w) = Some items →
  raw_descriptors (self w) !! desc_id = Some desc →
  let ok := forallb (fun item => bool_decide (snd item ∈ desc_data_keys desc))
                    items in
  (if ok then full_event (settings (self w)) items cache
   else Ok (zero_event items)) = Ok processed →
  dichro_out (settings (self w)) processed = Ok out →
  process_xmcd cache w =
    ({| self := self w;
        dichro := put out (dichro w);
        warnings := if ok then warnings w
                    else warnings w ++ [schema_warning] |},
     Ok {| d_data := processed; d_descriptor := desc_id |}).
Proof.
  intros Hne Hall Hitems Hdesc ok Hproc Hout.
  destruct cache as [|e0 rest]; [done|].
  pose proof (Forall_inv Hall) as He0. simpl in He0. subst desc_id.
  unfold process_xmcd. unfold_M.
  rewrite (forallb_descriptor_true _ _ Hall). cbn [negb].
  rewrite Hitems, (keys_in_schema_found _ _ _ _ Hdesc).
  fold ok. destruct ok.
  - rewrite Hproc. cbn [self]. by rewrite Hout.
  - injection Hproc as <-. cbn [self]. by rewrite Hout.
Qed.

Lemma forallb_descriptor_Forall (desc_id : string) (cache : list (Event num)) :
  forallb (fun evt => String.eqb desc_id (descriptor evt)) cache = true →
  Forall (fun evt => descriptor evt = desc_id) cache.
Proof.
  rewrite forallb_forall, Forall_forall. intros Hall evt Hin.
  symmetry. apply String.eqb_eq, Hall. by apply list_elem_of_In.
Qed.

(** What a returning call of [process_xmcd] went through. *)
Lemma process_xmcd_inv (cache : list (Event num)) (w w' : World num) derived :
  process_xmcd cache w = (w', Ok derived) →
  ∃ items ok processed out,
    cache ≠ [] ∧
    Forall (fun evt => descriptor evt = d_descriptor derived) cache ∧
    data_keys (self w) = Some items ∧
    keys_in_schema (raw_descriptors (self w)) (d_descriptor derived) items
      = Ok ok ∧
    (if ok : bool then full_event (settings (self w)) items cache
     else Ok (zero_event items)) = Ok processed ∧
    dichro_out (settings (self w)) processed = Ok out ∧
    d_data derived = processed ∧
    w' = {| self := self w;
            dichro := put out (dichro w);
            warnings := if ok then warnings w
                        else warnings w ++ [schema_warning] |}.
Proof.
  unfold process_xmcd. unfold_M.
  destruct cache as [|e0 rest]; [done|].
  destruct (forallb _ (e0 :: rest)) eqn:Hall; cbn [negb]; [|done].
  apply forallb_descriptor_Forall in Hall.
  destruct (data_keys (self w)) as [items|] eqn:Hitems; [|done].
  destruct (keys_in_schema _ _ items) as [ok|] eqn:Hok; [|done].
  destruct ok.
  - destruct (full_event _ items _) as [processed|] eqn:Hproc; [|done].
    cbn [self].
    destruct (dichro_out _ processed) as [out|] eqn:Hout; [|done].
    intros [= <- <-]. by exists items, true, processed, out.
  - cbn [self].
    destruct (dichro_out _ (zero_event items)) as [out|] eqn:Hout; [|done].
    intros [= <- <-]. by exists items, false, (zero_event items), out.
Qed.

(** ** Reduction of a matching window *)

(** C1: for a window of N raw events that share a descriptor whose schema
    contains every configured channel name, the reducer returns a derived
    event whose [xas] is the mean of the per-event absorption
    [ln(M[i]/D[i])] (transmission) or [D[i]/M[i]] (otherwise) and whose
    [xmcd] is twice the mean of the absorption times the pattern; the same
    two values are stored in the device. *)
Theorem reducer_absorption (w : World num) (cache : list (Event num))
    (desc_id : string) (desc : Descriptor) (mon det : string) :
  let s := settings (self w) in
  let A := absorption_of (transmission s)
                         (readings cache mon) (readings cache det) in
  let xas := PyFloat (fmean A) in
  let xmcd := PyFloat (fmul (fmean (zip_with (fun a p => fmul a (of_int p))
                                             A (pattern s)))
                            (of_int 2)) in
  cache ≠ [] →
  length cache = length (pattern s) →
  Forall (fun evt => descriptor evt = desc_id) cache →
  raw_descriptors (self w) !! desc_id = Some desc →
  Forall (conforms desc) cache →
  data_keys (self w) = Some (get_keys s) →
  monitor s = Some mon →
  detector s = Some det →
  Forall (fun item => snd item ∈ desc_data_keys desc) (get_keys s) →
  ∃ w' derived,
    process_xmcd cache w = (w', Ok derived) ∧
    d_descriptor derived = desc_id ∧
    d_data derived !! "xas" = Some xas ∧
    d_data derived !! "xmcd" = Some xmcd ∧
    sig_xas (dichro w') = xas ∧
    sig_xmcd (dichro w') = xmcd ∧
    warnings w' = warnings w.
Proof.
  intros s A xas xmcd Hne Hlen Hall Hdesc Hconf Hkeys Hmon Hdet Hschema.
  pose proof (conforms_readable s desc cache Hschema Hconf) as Hread.
  pose proof (full_event_get_keys s cache mon det Hread Hmon Hdet Hlen) as Hfull.
  cbv zeta in Hfull. fold A in Hfull. fold xas xmcd in Hfull.
  set (processed := <["xmcd" := xmcd]> (<["xas" := xas]> (positions s cache)))
    in Hfull.
  assert (dichro_out s processed =
            Ok (entry_of (positioner1 s) processed,
                entry_of (positioner2 s) processed, xas, xmcd)) as Hout.
  { apply dichro_out_ok.
    - intros pos Hp. apply lookup_final.
      rewrite (positions_lookup s cache pos); eauto.
    - intros pos Hp. apply lookup_final.
      rewrite (positions_lookup s cache pos); eauto.
    - apply lookup_final_xas.
    - apply lookup_final_xmcd. }
  eexists _, _. split.
  { eapply (process_xmcd_run cache w desc_id desc); try done.
    rewrite (forallb_schema_true _ _ Hschema). exact Hfull. }
  rewrite (forallb_schema_true _ _ Hschema). cbn.
  repeat split; try reflexivity.
  - apply lookup_final_xas.
  - apply lookup_final_xmcd.
Qed.

(** ** Reduction of a window whose schema does not match *)

(** C4: when the schema of the window's descriptor lacks a configured
    channel name, the reducer raises nothing: it logs the warning and
    returns a derived event in which [xas], [xmcd] and every configured
    positioner field are 0, whatever the readings are. *)
Theorem reducer_degraded (w : World num) (cache : list (Event num))
    (desc_id : string) (desc : Descriptor) (item : string * string) :
  let s := settings (self w) in
  cache ≠ [] →
  Forall (fun evt => descriptor evt = desc_id) cache →
  raw_descriptors (self w) !! desc_id = Some desc →
  data_keys (self w) = Some (get_keys s) →
  item ∈ get_keys s →
  snd item ∉ desc_data_keys desc →
  ∃ w' derived,
    process_xmcd cache w = (w', Ok derived) ∧
    warnings w' = warnings w ++ [schema_warning] ∧
    d_data derived !! "xas" = Some (PyInt 0) ∧
    d_data derived !! "xmcd" = Some (PyInt 0) ∧
    match positioner1 s with
    | Some pos => d_data derived !! pos = Some (PyInt 0)
    | None => True
    end ∧
    match positioner2 s with
    | Some pos => d_data derived !! pos = Some (PyInt 0)
    | None => True
    end ∧
    sig_xas (dichro w') = PyInt 0 ∧
    sig_xmcd (dichro w') = PyInt 0.
Proof.
  intros s Hne Hall Hdesc Hkeys Hin Hnot.
  pose proof (forallb_schema_false desc _ item Hin Hnot) as Hok.
  set (processed := zero_event (num:=num) (get_keys s)).
  assert (∀ pos, positioner1 s = Some pos ∨ positioner2 s = Some pos →
                 processed !! pos = Some (PyInt 0)) as Hpos.
  { intros pos Hp. unfold processed. rewrite zero_event_get_keys.
    destruct (decide ("xmcd" = pos)) as [<-|?]; [by rewrite lookup_insert_eq|].
    rewrite lookup_insert_ne by done.
    destruct (decide ("xas" = pos)) as [<-|?]; [by rewrite lookup_insert_eq|].
    rewrite lookup_insert_ne by done. by apply zero_positions_lookup. }
  assert (processed !! "xas" = Some (PyInt 0)) as Hxas.
  { unfold processed. rewrite zero_event_get_keys. apply lookup_final_xas. }
  assert (processed !! "xmcd" = Some (PyInt 0)) as Hxmcd.
  { unfold processed. rewrite zero_event_get_keys. apply lookup_final_xmcd. }
  assert (dichro_out s processed =
            Ok (entry_of (positioner1 s) processed,
                entry_of (positioner2 s) processed, PyInt 0, PyInt 0)) as Hout.
  { apply dichro_out_ok; try done.
    - intros pos Hp. rewrite Hpos; eauto.
    - intros pos Hp. rewrite Hpos; eauto. }
  eexists _, _. split.
  { eapply (process_xmcd_run cache w desc_id desc); try done.
    rewrite Hok. reflexivity. }
  rewrite Hok. cbn.
  repeat split; try done.
  - destruct (positioner1 s) as [pos|] eqn:Hp; [|done]. apply Hpos. by left.
  - destruct (positioner2 s) as [pos|] eqn:Hp; [|done]. apply Hpos. by right.
Qed.

(** ** One call of [event] *)

Lemma event_primary (w : World num) (p : Partition num) doc desc :
  nodes (self w) = Some p →
  raw_descriptors (self w) !! descriptor doc = Some desc →
  desc_name desc = Some "primary" →
  event doc w =
    let w1 := with_self w (with_nodes (self w)
                                      (Some (partition_update p doc).1)) in
    match (partition_update p doc).2 with
    | Some cache =>
        match process_xmcd cache w1 with
        | (w2, Ok derived) => process_event derived w2
        | (w2, Raise e) => (w2, Raise e)
        end
    | None => (w1, Ok tt)
    end.
Proof.
  intros Hn Hd Hprim. unfold event, emit. unfold_M. unfold getitem.
  rewrite Hd, Hprim. rewrite bool_decide_eq_true_2 by done.
  cbv beta. rewrite Hn.
  destruct (partition_update p doc) as [p' [cache|]]; reflexivity.
Qed.

Lemma partition_update_full (p : Partition num) doc :
  length (part_buffer p ++ [doc]) = part_n p →
  partition_update p doc =
    ({| part_n := part_n p; part_buffer := [] |}, Some (part_buffer p ++ [doc])).
Proof.
  intros Hl. unfold partition_update. by rewrite Hl, Nat.eqb_refl.
Qed.

Lemma partition_update_partial (p : Partition num) doc :
  length (part_buffer p ++ [doc]) ≠ part_n p →
  partition_update p doc =
    ({| part_n := part_n p; part_buffer := part_buffer p ++ [doc] |}, None).
Proof.
  intros Hl. unfold partition_update.
  by apply Nat.eqb_neq in Hl as ->.
Qed.

(** ** Events of other streams *)

(** C6: an event whose descriptor is not named "primary" is ignored:
    [event] returns without changing the buffer, the stream object, the
    device or the log. *)
Theorem event_ignores_other_streams (w : World num) (doc : Event num)
    (desc : Descriptor) :
  raw_descriptors (self w) !! descriptor doc = Some desc →
  desc_name desc ≠ Some "primary" →
  event doc w = (w, Ok tt).
Proof.
  intros Hd Hname. unfold event. unfold_M. unfold getitem.
  rewrite Hd. rewrite bool_decide_eq_false_2 by done. reflexivity.
Qed.

(** ** A window with mixed descriptors *)

(** C3: when the event that completes a window makes it contain two
    different descriptor ids, the reducer raises, [event] propagates the
    exception, and nothing is published to the device, forwarded
    downstream or logged. *)
Theorem mixed_window_raises (w : World num) (p : Partition num)
    (doc : Event num) (desc : Descriptor) (e1 e2 : Event num) :
  let cache := part_buffer p ++ [doc] in
  nodes (self w) = Some p →
  raw_descriptors (self w) !! descriptor doc = Some desc →
  desc_name desc = Some "primary" →
  length cache = part_n p →
  e1 ∈ cache → e2 ∈ cache → descriptor e1 ≠ descriptor e2 →
  process_xmcd cache w = (w, Raise mixed_bundle) ∧
  ∃ w', event doc w = (w', Raise mixed_bundle) ∧
        dichro w' = dichro w ∧
        emitted (self w') = emitted (self w) ∧
        warnings w' = warnings w.
Proof.
  intros cache Hn Hd Hprim Hlen H1 H2 Hne.
  split; [exact (process_xmcd_mixed cache e1 e2 w H1 H2 Hne)|].
  rewrite (event_primary w p doc desc Hn Hd Hprim).
  rewrite (partition_update_full p doc Hlen). cbn [fst snd]. cbv zeta.
  fold cache. rewrite (process_xmcd_mixed cache e1 e2 _ H1 H2 Hne).
  eexists. split; [reflexivity|]. done.
Qed.

(** ** Publication *)



(** ** Subscription *)

(** C10: whatever event type the caller names, [subscribe] registers the
    observer under "acq_done", after the observers already there, and
    leaves the other event types alone; so a [put] on a device whose
    observers all came through [subscribe] notifies exactly those, in the
    order of their subscription. *)
Theorem subscribe_registers_acq_done (cb : callback)
    (event_type : option string) (run : bool) (d : DichroDevice num)
    (calls : list (callback * option string * bool)) (t : dev_tuple num) :
  let d' := fold_left
              (fun d c => subscribe (fst (fst c)) (snd (fst c)) (snd c) d)
              calls DichroDevice_init in
  _callbacks (subscribe cb event_type run d) !! "acq_done"
    = Some (subscribers d ++ [cb]) ∧
  delete "acq_done" (_callbacks (subscribe cb event_type run d))
    = delete "acq_done" (_callbacks d) ∧
  invoked (put t d') =
    invoked d' ++ map (fun c => (fst (fst c), t)) calls.
Proof.
  intros d'. split; [|split].
  - unfold subscribe, base_subscribe, subscribers, SUB_ACQ_DONE. simpl.
    by rewrite lookup_insert_eq.
  - unfold subscribe, base_subscribe. simpl. by rewrite delete_insert_eq.
  - rewrite invoked_put. f_equal. unfold d'. rewrite subscribers_fold.
    unfold subscribers, DichroDevice_init. simpl. rewrite lookup_empty. simpl.
    by rewrite map_map.
Qed.

(** ** Stopping a run *)

(** C9: [stop] leaves the monitor, the detector, the transmission flag
    and the pattern of the settings as they were; only the two positioner
    names change. *)
Theorem stop_keeps_measurement_settings (uid : string) (w : World num) :
  let s := settings (self w) in
  let s' := settings (self (stop uid w).1) in
  monitor s' = monitor s ∧
  detector s' = detector s ∧
  transmission s' = transmission s ∧
  pattern s' = pattern s ∧
  s' = {| positioner1 := None; positioner2 := None;
          monitor := monitor s; detector := detector s;
          transmission := transmission s; pattern := pattern s |}.
Proof. done. Qed.

(** ** A run of events *)

(** The value returned by the reducer depends on the stream object only
    through the channel map, the settings and the descriptor cache. *)
Lemma process_xmcd_same_run (cache : list (Event num)) (w1 w2 : World num) :
  same_run (self w1) (self w2) →
  (process_xmcd cache w2).2 = (process_xmcd cache w1).2.
Proof.
  intros (Hk & Hs & Hr). unfold process_xmcd. unfold_M.
  destruct cache as [|e0 rest]; [done|].
  destruct (forallb _ (e0 :: rest)); cbn [negb]; [|done].
  rewrite Hk, Hr. destruct (data_keys (self w1)) as [items|]; [|done].
  destruct (keys_in_schema _ _ items) as [[]|]; [| |done].
  - rewrite Hs. destruct (full_event _ items _) as [processed|]; [|done].
    by destruct (dichro_out _ processed).
  - cbn [self]. rewrite Hs. by destruct (dichro_out _ (zero_event items)).
Qed.

Lemma same_run_trans (st1 st2 st3 : DichroStream num) :
  same_run st1 st2 → same_run st2 st3 → same_run st1 st3.
Proof. intros (?&?&?) (?&?&?). repeat split; congruence. Qed.

Lemma primary_same_run (st st' : DichroStream num) doc :
  same_run st st' → primary st doc → primary st' doc.
Proof. intros (_ & _ & Hr) (desc & Hd & Hp). exists desc. by rewrite Hr. Qed.

Lemma event_partial (w : World num) (p : Partition num) doc :
  nodes (self w) = Some p → primary (self w) doc →
  length (part_buffer p ++ [doc]) ≠ part_n p →
  ∃ w', event doc w = (w', Ok tt) ∧
        same_run (self w) (self w') ∧
        nodes (self w') = Some {| part_n := part_n p;
                                  part_buffer := part_buffer p ++ [doc] |} ∧
        emitted (self w') = emitted (self w).
Proof.
  intros Hn (desc & Hd & Hp) Hlen.
  rewrite (event_primary w p doc desc Hn Hd Hp).
  rewrite (partition_update_partial p doc Hlen). cbn [fst snd]. cbv zeta.
  eexists. split; [reflexivity|]. done.
Qed.

Lemma event_full (w : World num) (p : Partition num) doc derived :
  nodes (self w) = Some p → primary (self w) doc →
  length (part_buffer p ++ [doc]) = part_n p →
  (process_xmcd (part_buffer p ++ [doc]) w).2 = Ok derived →
  ∃ w', event doc w = (w', Ok tt) ∧
        same_run (self w) (self w') ∧
        nodes (self w') = Some {| part_n := part_n p; part_buffer := [] |} ∧
        emitted (self w') = emitted (self w) ++ [DocEvent derived].
Proof.
  intros Hn (desc & Hd & Hp) Hlen Hproc.
  rewrite (event_primary w p doc desc Hn Hd Hp).
  rewrite (partition_update_full p doc Hlen). cbn [fst snd]. cbv zeta.
  set (w1 := with_self w _).
  assert (same_run (self w) (self w1)) as Hsame by done.
  rewrite <- (process_xmcd_same_run _ w w1 Hsame) in Hproc.
  pose proof (process_xmcd_self (part_buffer p ++ [doc]) w1) as Hself.
  destruct (process_xmcd _ w1) as [w2 r]. cbn [fst snd] in *. subst r.
  unfold process_event. unfold_M.
  eexists. split; [reflexivity|]. cbn [self]. rewrite Hself. done.
Qed.

Lemma events_windows (docs : list (Event num)) :
  ∀ (w : World num) (p : Partition num),
    nodes (self w) = Some p →
    Forall (primary (self w)) docs →
    Forall (fun c => ∃ d, (process_xmcd c w).2 = Ok d)
           (windows (part_n p) (part_buffer p) docs) →
    ∃ w' ds,
      events docs w = (w', Ok tt) ∧
      same_run (self w) (self w') ∧
      nodes (self w') =
        Some {| part_n := part_n p;
                part_buffer := leftover (part_n p) (part_buffer p) docs |} ∧
      emitted (self w') = emitted (self w) ++ map DocEvent ds ∧
      Forall2 (fun c d => (process_xmcd c w).2 = Ok d)
              (windows (part_n p) (part_buffer p) docs) ds.
Proof.
  induction docs as [|doc rest IH]; intros w p Hn Hprim Hok.
  - exists w, []. cbn. rewrite app_nil_r. destruct p. repeat split; done.
  - apply Forall_cons_1 in Hprim as [Hdoc Hrest].
    cbn [windows leftover] in *.
    destruct (Nat.eqb (length (part_buffer p ++ [doc])) (part_n p)) eqn:Hlen.
    + apply Nat.eqb_eq in Hlen.
      apply Forall_cons_1 in Hok as [[d Hd] Hok].
      destruct (event_full w p doc d Hn Hdoc Hlen Hd)
        as (w1 & Hev & Hsame & Hn1 & Hem1).
      destruct (IH w1 _ Hn1) as (w2 & ds & Hevs & Hsame2 & Hn2 & Hem2 & Hds).
      { eapply Forall_impl; [exact Hrest|].
        intros x. by apply primary_same_run. }
      { eapply Forall_impl; [exact Hok|]. intros c [d' Hd']. exists d'.
        by rewrite (process_xmcd_same_run c w w1 Hsame). }
      exists w2, (d :: ds). cbn [events part_n part_buffer] in *.
      unfold mbind, M_bind in *. rewrite Hev, Hevs.
      split; [reflexivity|]. split; [by eapply same_run_trans|].
      split; [done|]. split.
      * rewrite Hem2, Hem1, <- app_assoc. reflexivity.
      * constructor; [done|].
        eapply Forall2_impl; [exact Hds|]. intros c d' Hc.
        by rewrite <- (process_xmcd_same_run c w w1 Hsame).
    + apply Nat.eqb_neq in Hlen.
      destruct (event_partial w p doc Hn Hdoc Hlen)
        as (w1 & Hev & Hsame & Hn1 & Hem1).
      destruct (IH w1 _ Hn1) as (w2 & ds & Hevs & Hsame2 & Hn2 & Hem2 & Hds).
      { eapply Forall_impl; [exact Hrest|].
        intros x. by apply primary_same_run. }
      { cbn [part_n part_buffer].
        eapply Forall_impl; [exact Hok|]. intros c [d' Hd']. exists d'.
        by rewrite (process_xmcd_same_run c w w1 Hsame). }
      exists w2, ds. cbn [events part_n part_buffer] in *.
      unfold mbind, M_bind in *. rewrite Hev, Hevs.
      split; [reflexivity|]. split; [by eapply same_run_trans|].
      split; [done|]. split.
      * by rewrite Hem2, Hem1.
      * eapply Forall2_impl; [exact Hds|]. intros c d' Hc.
        by rewrite <- (process_xmcd_same_run c w w1 Hsame).
Qed.

(** ** The windows of a run are its consecutive groups of N events *)

Lemma windows_zero (docs buf : list (Event num)) :
  windows 0 buf docs = [] ∧ leftover 0 buf docs = buf ++ docs.
Proof.
  revert buf. induction docs as [|doc rest IH]; intros buf; cbn.
  - by rewrite app_nil_r.
  - rewrite length_app. cbn. replace (length buf + 1) with (S (length buf)) by lia.
    cbn. destruct (IH (buf ++ [doc])) as [-> ->].
    by rewrite <- app_assoc.
Qed.

Lemma windows_take_drop (size : nat) (docs : list (Event num)) :
  size ≠ 0 → ∀ buf, length buf < size →
  windows size buf docs =
    map (fun i => take size (drop (i * size) (buf ++ docs)))
        (seq 0 ((length buf + length docs) / size)) ∧
  leftover size buf docs =
    drop ((length buf + length docs) / size * size) (buf ++ docs).
Proof.
  intros Hsize. induction docs as [|doc rest IH]; intros buf Hbuf.
  - cbn [windows leftover length]. rewrite Nat.add_0_r, app_nil_r.
    rewrite Nat.div_small by done. done.
  - cbn [windows leftover].
    destruct (Nat.eqb (length (buf ++ [doc])) size) eqn:Hlen.
    + apply Nat.eqb_eq in Hlen.
      destruct (IH [] ltac:(cbn; lia)) as [-> ->]. cbn [app length].
      assert ((length buf + S (length rest)) / size
              = S (length rest / size)) as ->.
      { rewrite length_app in Hlen. cbn in Hlen.
        replace (length buf + S (length rest)) with (1 * size + length rest)
          by lia.
        by rewrite Nat.div_add_l. }
      replace (buf ++ doc :: rest) with ((buf ++ [doc]) ++ rest)
        by (by rewrite <- app_assoc).
      cbn [seq map]. rewrite <- fmap_S_seq. split.
      * f_equal.
        -- rewrite Nat.mul_0_l, drop_0. by rewrite take_app_length'.
        -- change (S <$> seq 0 (length rest / size))
             with (map S (seq 0 (length rest / size))).
           rewrite map_map. apply map_ext. intros i.
           replace (S i * size) with (size + i * size) by lia.
           by rewrite drop_app_add'.
      * replace (S (length rest / size) * size)
          with (size + length rest / size * size) by lia.
        by rewrite drop_app_add'.
    + apply Nat.eqb_neq in Hlen.
      assert (length (buf ++ [doc]) < size) as Hlt.
      { rewrite length_app in *. cbn in *. lia. }
      destruct (IH (buf ++ [doc]) Hlt) as [-> ->].
      rewrite length_app. cbn [length].
      replace (length buf + 1 + length rest)
        with (length buf + S (length rest)) by lia.
      by rewrite <- app_assoc.
Qed.

Lemma windows_from_empty (size : nat) (docs : list (Event num)) :
  windows size [] docs =
    map (fun i => take size (drop (i * size) docs))
        (seq 0 (length docs / size)) ∧
  leftover size [] docs = drop (length docs / size * size) docs.
Proof.
  destruct (decide (size = 0)) as [->|Hsize].
  - destruct (windows_zero docs []) as [-> ->]. done.
  - apply (windows_take_drop size docs Hsize []). cbn. lia.
Qed.

(** ** Window completeness *)

Lemma descriptor_docs_frame (docs : list (string * Descriptor)) (w : World num) :
  let w' := (descriptor_docs docs w).1 in
  (descriptor_docs docs w).2 = Ok tt ∧
  n (self w') = n (self w) ∧
  nodes (self w') = nodes (self w) ∧
  data_keys (self w') = data_keys (self w) ∧
  settings (self w') = settings (self w) ∧
  emitted (self w') = emitted (self w) ∧
  dichro w' = dichro w ∧
  warnings w' = warnings w.
Proof.
  revert w. induction docs as [|[uid doc] rest IH]; intros w; [done|].
  cbn [descriptor_docs]. unfold descriptor_doc at 1. unfold_M.
  exact (IH (with_self w
               {| n := n (self w); nodes := nodes (self w);
                  data_keys := data_keys (self w);
                  settings := settings (self w);
                  _trigger := _trigger (self w);
                  raw_descriptors := <[uid := doc]> (raw_descriptors (self w));
                  emitted := emitted (self w) |})).
Qed.

(** C2 (as the code has it): in a run made of [start], the descriptors
    and then k primary events during which no reduction raises, exactly
    k / N derived events are forwarded, N being the length of the
    pattern: the i-th one is the reduction of the events
    i*N .. i*N+N-1, in that order; the last k mod N events stay in the
    buffer, and [stop] discards them without forwarding, publishing or
    logging anything. *)
Theorem window_completeness (w : World num) (sd : StartDoc)
    (descs : list (string * Descriptor)) (uid : string)
    (docs : list (Event num)) :
  let size := length (pattern (settings (self w))) in
  let k := length docs in
  let w0 := (descriptor_docs descs (start sd w).1).1 in
  let window := fun i => take size (drop (i * size) docs) in
  Forall (primary (self w0)) docs →
  (∀ i, i < k / size → ∃ d, (process_xmcd (window i) w0).2 = Ok d) →
  ∃ w1 ds w2,
    events docs w0 = (w1, Ok tt) ∧
    length ds = k / size ∧
    Forall2 (fun i d => (process_xmcd (window i) w0).2 = Ok d)
            (seq 0 (k / size)) ds ∧
    emitted (self w1) = emitted (self w0) ++ map DocEvent ds ∧
    nodes (self w1) =
      Some {| part_n := size; part_buffer := drop (k / size * size) docs |} ∧
    length (drop (k / size * size) docs) = k mod size ∧
    stop uid w1 = (w2, Ok tt) ∧
    nodes (self w2) = None ∧
    emitted (self w2) = emitted (self w1) ++ [DocStop uid] ∧
    dichro w2 = dichro w1 ∧
    warnings w2 = warnings w1.
Proof.
  intros size k w0 window Hprim Hok.
  destruct (windows_from_empty size docs) as [Hwin Hleft].
  destruct (events_windows docs w0 {| part_n := size; part_buffer := [] |})
    as (w1 & ds & Hev & Hsame & Hn & Hem & Hds).
  - unfold w0.
    by destruct (descriptor_docs_frame descs (start sd w).1)
      as (_ & _ & -> & _).
  - exact Hprim.
  - cbn [part_n part_buffer]. rewrite Hwin. apply Forall_forall.
    intros c Hc. apply list_elem_of_fmap in Hc as (i & -> & Hi).
    apply elem_of_seq in Hi. apply Hok. unfold k. lia.
  - cbn [part_n part_buffer] in *. rewrite Hwin in Hds. rewrite Hleft in Hn.
    change (map ?f ?l) with (f <$> l) in Hds.
    apply Forall2_fmap_l in Hds.
    exists w1, ds, (stop uid w1).1.
    split; [exact Hev|]. split.
    { apply Forall2_length in Hds. by rewrite length_seq in Hds. }
    split; [exact Hds|]. split; [exact Hem|]. split; [exact Hn|]. split.
    { rewrite length_drop, Nat.Div0.mod_eq. fold k. lia. }
    done.
Qed.

(** ** Stop, then start *)

(** C5 (as the code has it): [stop] returns normally, drops the nodes of
    the stream and with them the buffer, clears the channel map and the
    two positioner names, and leaves the field [n] as it was; the next
    [start] builds a partition with an empty buffer whose size is the
    length of the pattern, whatever was buffered before. *)
Theorem stop_then_start (w : World num) (uid : string) (sd : StartDoc) :
  let w1 := (stop uid w).1 in
  let w2 := (start sd w1).1 in
  let size := length (pattern (settings (self w))) in
  (stop uid w).2 = Ok tt ∧
  nodes (self w1) = None ∧
  data_keys (self w1) = None ∧
  positioner1 (settings (self w1)) = None ∧
  positioner2 (settings (self w1)) = None ∧
  n (self w1) = n (self w) ∧
  (start sd w1).2 = Ok tt ∧
  nodes (self w2) = Some {| part_n := size; part_buffer := [] |} ∧
  n (self w2) = size ∧
  data_keys (self w2) = Some (get_keys (settings (self w1))).
Proof. done. Qed.

(** ** An absent second positioner *)

Lemma xas_xmcd_positions (s s' : Settings) (P P' : gmap string (value num))
    m d processed :
  transmission s' = transmission s → pattern s' = pattern s →
  xas_xmcd s {| processed_evt := P; _mon := m; _det := d |} = Ok processed →
  ∃ xas xmcd,
    processed = <["xmcd" := xmcd]> (<["xas" := xas]> P) ∧
    xas_xmcd s' {| processed_evt := P'; _mon := m; _det := d |}
      = Ok (<["xmcd" := xmcd]> (<["xas" := xas]> P')).
Proof.
  intros Ht Hp. unfold xas_xmcd. rewrite Hp.
  assert (∀ Q Q', absorption s' {| processed_evt := Q'; _mon := m; _det := d |}
                  = absorption s {| processed_evt := Q; _mon := m; _det := d |})
    as Habs.
  { intros Q Q'. unfold absorption. by rewrite Ht. }
  rewrite (Habs P P').
  destruct (absorption s _) as [xas|]; [|done]. cbn [mbind result_bind].
  destruct (times_pattern xas (pattern s)) as [prod|]; [|done].
  cbn [mbind result_bind mret result_ret processed_evt].
  intros [= <-]. eauto.
Qed.

Lemma get_keys_add_positioner2 (s : Settings) (p2 : string) :
  positioner2 s = None →
  let rest := get_keys (set_positioner2 None
                          {| positioner1 := None; positioner2 := None;
                             monitor := monitor s; detector := detector s;
                             transmission := transmission s;
                             pattern := pattern s |}) in
  let first := match positioner1 s with
               | Some v => [("positioner1", v)]
               | None => []
               end in
  get_keys (set_positioner2 (Some p2) s) = first ++ ("positioner2", p2) :: rest ∧
  get_keys s = first ++ rest.
Proof. intros Hnone. rewrite !get_keys_unfold, Hnone. done. Qed.

Lemma Forall_get_keys_add (s : Settings) (p2 : string)
    (P : string * string → Prop) :
  positioner2 s = None →
  P ("positioner2", p2) → Forall P (get_keys s) →
  Forall P (get_keys (set_positioner2 (Some p2) s)).
Proof.
  intros Hnone. destruct (get_keys_add_positioner2 s p2 Hnone) as [-> ->].
  rewrite !Forall_app, Forall_cons. tauto.
Qed.

Lemma elem_of_get_keys_add (s : Settings) (p2 : string) item :
  positioner2 s = None →
  item ∈ get_keys s → item ∈ get_keys (set_positioner2 (Some p2) s).
Proof.
  intros Hnone. destruct (get_keys_add_positioner2 s p2 Hnone) as [-> ->].
  rewrite !elem_of_app, elem_of_cons. tauto.
Qed.

Lemma forallb_schema_Forall desc (items : list (string * string)) :
  forallb (fun item => bool_decide (snd item ∈ desc_data_keys desc)) items = true →
  Forall (fun item => snd item ∈ desc_data_keys desc) items.
Proof.
  rewrite forallb_forall, Forall_forall. intros Hall item Hin.
  eapply bool_decide_eq_true, Hall. by apply list_elem_of_In.
Qed.

Lemma forallb_schema_witness desc (items : list (string * string)) :
  forallb (fun item => bool_decide (snd item ∈ desc_data_keys desc)) items = false →
  ∃ item, item ∈ items ∧ snd item ∉ desc_data_keys desc.
Proof.
  induction items as [|item items IH]; [done|]. cbn [forallb].
  destruct (bool_decide _) eqn:Hb; cbn.
  - intros (x & Hx & Hn)%IH. exists x. split; [by right|done].
  - intros _. exists item. split; [by left|].
    by apply bool_decide_eq_false in Hb.
Qed.

Lemma dichro_out_absent (s : Settings) (processed : gmap string (value num)) out :
  positioner2 s = None →
  dichro_out s processed = Ok out →
  out.1.1.2 = PyFloat nan ∧
  processed !! "xas" = Some out.1.2 ∧
  processed !! "xmcd" = Some out.2.
Proof.
  intros Hnone. unfold dichro_out.
  destruct (tuple_entry s processed "positioner1") as [p1|]; [|done].
  unfold tuple_entry at 1. unfold getattr. cbn. rewrite Hnone.
  cbn [mbind result_bind]. unfold getitem.
  destruct (processed !! "xas") as [xas|]; [|done].
  destruct (processed !! "xmcd") as [xmcd|]; [|done].
  by intros [= <-].
Qed.


(** C7 (as the code has it): in a run whose [positioner2] is [None],
    every published tuple has NaN as its second entry, and its [xas] and
    [xmcd] are the ones the same window gives in a run whose [positioner2]
    names a channel of the window's descriptor. *)
Theorem absent_positioner2 (w w1 : World num) (cache : list (Event num))
    (desc_id : string) (desc : Descriptor) (p2 : string) (d1 : Derived num) :
  let s := settings (self w) in
  let w_p2 := with_self w (with_positioner2 (Some p2) (self w)) in
  positioner2 s = None →
  data_keys (self w) = Some (get_keys s) →
  Forall (fun evt => descriptor evt = desc_id) cache →
  raw_descriptors (self w) !! desc_id = Some desc →
  Forall (conforms desc) cache →
  p2 ∈ desc_data_keys desc →
  process_xmcd cache w = (w1, Ok d1) →
  sig_positioner2 (dichro w1) = PyFloat nan ∧
  ∃ w2 d2,
    process_xmcd cache w_p2 = (w2, Ok d2) ∧
    sig_xas (dichro w2) = sig_xas (dichro w1) ∧
    sig_xmcd (dichro w2) = sig_xmcd (dichro w1) ∧
    d_data d2 !! "xas" = d_data d1 !! "xas" ∧
    d_data d2 !! "xmcd" = d_data d1 !! "xmcd".
Proof.
  intros s w_p2 Hnone Hkeys Hall Hdesc Hconf Hp2 Hrun.
  apply process_xmcd_inv in Hrun
    as (items & ok & processed & out & Hne & Hall1 & Hitems & Hks & Hproc
        & Hout & Hdata & ->).
  rewrite Hkeys in Hitems. injection Hitems as <-.
  assert (d_descriptor d1 = desc_id) as Hid.
  { destruct cache as [|e0 rest]; [done|].
    apply Forall_inv in Hall, Hall1. congruence. }
  rewrite Hid, (keys_in_schema_found _ _ _ _ Hdesc) in Hks.
  injection Hks as Hok.
  destruct (dichro_out_absent s processed out Hnone Hout)
    as (Hnan & Hxas & Hxmcd).
  split.
  { destruct out as [[[a b] c] d]. exact Hnan. }
  set (s' := set_positioner2 (Some p2) s).
  assert (Forall (fun evt => is_Some (data evt !! p2)) cache) as Hcol
    by (by eapply conforms_reading).
  assert (forallb (fun item => bool_decide (snd item ∈ desc_data_keys desc))
                  (get_keys s') = ok) as Hok'.
  { destruct ok.
    - apply forallb_schema_true, Forall_get_keys_add; [done|done|].
      by apply forallb_schema_Forall.
    - apply forallb_schema_witness in Hok as (item & Hin & Hnot).
      eapply forallb_schema_false; [|exact Hnot].
      by apply elem_of_get_keys_add. }
  assert (∃ processed',
            (if ok then full_event s' (get_keys s') cache
             else Ok (zero_event (get_keys s'))) = Ok processed' ∧
            processed' !! "xas" = processed !! "xas" ∧
            processed' !! "xmcd" = processed !! "xmcd" ∧
            (∀ pos, positioner1 s' = Some pos ∨ positioner2 s' = Some pos →
                    is_Some (processed' !! pos)))
    as (processed' & Hproc' & Hxas' & Hxmcd' & Hpos').
  { destruct ok.
    - apply forallb_schema_Forall in Hok.
      pose proof (conforms_readable s desc cache Hok Hconf) as Hread.
      assert (readable s' cache) as Hread'.
      { apply Forall_get_keys_add; done. }
      unfold full_event in Hproc |- *.
      rewrite (for_items_get_keys s cache Hread) in Hproc.
      rewrite (for_items_get_keys s' cache Hread').
      cbn [mbind result_bind] in Hproc |- *.
      destruct (xas_xmcd_positions s s' _ (positions s' cache) _ _ _
                  eq_refl eq_refl Hproc) as (xas & xmcd & -> & Hproc').
      eexists. split; [exact Hproc'|].
      rewrite !lookup_final_xas, !lookup_final_xmcd.
      split; [done|]. split; [done|].
      intros pos Hp. apply lookup_final.
      by rewrite (positions_lookup s' cache pos Hp).
    - injection Hproc as <-. eexists. split; [reflexivity|].
      rewrite !zero_event_get_keys, !lookup_final_xas, !lookup_final_xmcd.
      split; [done|]. split; [done|].
      intros pos Hp. apply lookup_final.
      by rewrite (zero_positions_lookup s' pos Hp). }
  assert (dichro_out s' processed' =
            Ok (entry_of (positioner1 s') processed',
                entry_of (positioner2 s') processed', out.1.2, out.2)) as Hout'.
  { apply dichro_out_ok; try congruence; eauto. }
  eexists _, _. split.
  { eapply (process_xmcd_run cache w_p2 desc_id desc (get_keys s') processed');
      [done|done|done|done| |exact Hout'].
    rewrite Hok'. exact Hproc'. }
  cbn. rewrite Hxas', Hxmcd', Hdata.
  destruct out as [[[a b] c] d]. done.
Qed.

End Properties.

(** * Further properties of the stream, the device and the staging *)

Section More.
Context {num : Type} `{Numeric num}.

Ltac unfold_M :=
  unfold mbind, mret, M_bind, M_ret, result_bind, result_ret,
    lift, raise, get_self, set_self, dichro_put, logger_warning,
    super_start, super_stop, process_event in *.

(** ** The channel map *)

(** X1: the channel map pairs [positioner1], [positioner2], [monitor]
    and [detector] each with the value of the settings field of that
    name, leaves out the fields that are [None], and keeps the roles in
    that order, none twice. *)
Theorem get_keys_spec (s : Settings) (key channel : string) :
  ((key, channel) ∈ get_keys s ↔
     key = "positioner1" ∧ positioner1 s = Some channel ∨
     key = "positioner2" ∧ positioner2 s = Some channel ∨
     key = "monitor" ∧ monitor s = Some channel ∨
     key = "detector" ∧ detector s = Some channel) ∧
  sublist (map fst (get_keys s))
          ["positioner1"; "positioner2"; "monitor"; "detector"] ∧
  NoDup (map fst (get_keys s)).
Proof.
  rewrite get_keys_unfold. split; [|split].
  - rewrite !elem_of_app.
    destruct (positioner1 s) as [p1|], (positioner2 s) as [p2|],
             (monitor s) as [mon|], (detector s) as [det|];
      rewrite ?list_elem_of_singleton, ?elem_of_nil;
      split; intros Hcase;
      repeat match goal with
             | Hc : _ ∨ _ |- _ => destruct Hc as [Hc|Hc]
             | Hc : _ ∧ _ |- _ => destruct Hc as [? Hc]
             | Hc : (_, _) = (_, _) |- _ => injection Hc as -> ->
             | Hc : Some _ = Some _ |- _ => injection Hc as ->
             | Hc : False |- _ => destruct Hc
             | Hc : None = Some _ |- _ => discriminate Hc
             end; subst; tauto.
  - destruct (positioner1 s), (positioner2 s), (monitor s), (detector s);
      cbn; repeat constructor.
  - destruct (positioner1 s), (positioner2 s), (monitor s), (detector s);
      cbn; compute_done.
Qed.

(** ** The reducer *)

(** X2: whatever the window and the world, [process_xmcd] leaves the
    stream object as it is; when it raises it has published nothing, and
    when it returns it has published exactly one tuple, the one built
    from the derived event it returns. *)
Theorem reducer_effects (cache : list (Event num)) (w : World num) :
  let r := process_xmcd cache w in
  self r.1 = self w ∧
  (warnings r.1 = warnings w ∨
   warnings r.1 = warnings w ++ [schema_warning]) ∧
  match r.2 with
  | Raise _ => dichro r.1 = dichro w
  | Ok derived =>
      ∃ t, dichro_out (settings (self w)) (d_data derived) = Ok t ∧
           dichro r.1 = put t (dichro w)
  end.
Proof.
  assert (∀ e, self w = self w ∧
               (warnings w = warnings w ∨
                warnings w = warnings w ++ [schema_warning]) ∧
               match (w, Raise (A:=Derived num) e).2 with
               | Raise _ => dichro w = dichro w
               | Ok derived =>
                   ∃ t, dichro_out (settings (self w)) (d_data derived) = Ok t ∧
                        dichro w = put t (dichro w)
               end) as Hraise.
  { intros e. split; [done|]. split; [by left|done]. }
  cbv zeta. unfold process_xmcd. unfold_M.
  destruct cache as [|e0 rest]; [apply Hraise|].
  destruct (forallb _ (e0 :: rest)); cbn [negb]; [|apply Hraise].
  destruct (data_keys (self w)) as [items|]; [|apply Hraise].
  destruct (keys_in_schema _ _ items) as [[]|]; [| |apply Hraise].
  - destruct (full_event _ items _) as [processed|]; [|apply Hraise].
    cbn [self].
    destruct (dichro_out _ processed) as [out|] eqn:Hout; [|apply Hraise].
    cbn. split; [done|]. split; [by left|]. by exists out.
  - cbn [self].
    destruct (dichro_out _ (zero_event items)) as [out|] eqn:Hout.
    + cbn. split; [done|]. split; [by right|]. by exists out.
    + cbn. split; [done|]. split; [by right|]. done.
Qed.

Lemma column_ok_readable (cache : list (Event num)) (channel : string) col :
  column cache channel = Ok col →
  Forall (fun evt => is_Some (data evt !! channel)) cache.
Proof.
  unfold column. revert col.
  induction cache as [|evt cache IH]; intros col; [done|].
  rewrite mapM_result_cons. unfold getitem at 1.
  destruct (data evt !! channel) as [x|] eqn:Hx; [|done].
  destruct (mapM _ cache) as [k|] eqn:Hk; [|done].
  intros _. constructor; [by rewrite Hx|]. by eapply IH.
Qed.

Lemma get_keys_roles (s : Settings) (item : string * string) :
  item ∈ get_keys s →
  item.1 ∈ ["positioner1"; "positioner2"; "monitor"; "detector"].
Proof.
  unfold get_keys. rewrite list_elem_of_omap.
  intros (key & Hin & Hf). destruct (getattr s key); [|done].
  by injection Hf as <-.
Qed.

Lemma loop_body_ok_readable (cache : list (Event num)) loc item loc' :
  item.1 ∈ ["positioner1"; "positioner2"; "monitor"; "detector"] →
  loop_body cache loc item = Ok loc' →
  Forall (fun evt => is_Some (data evt !! item.2)) cache.
Proof.
  destruct item as [key channel]. cbn [fst snd]. intros Hrole Hbody.
  assert (∃ col, column cache channel = Ok col) as [col Hcol];
    [|by eapply column_ok_readable].
  revert Hrole Hbody. rewrite !elem_of_cons, elem_of_nil.
  unfold loop_body.
  intros [->|[->|[->|[->|[]]]]]; cbn;
    destruct (column cache channel) as [col|]; by eauto.
Qed.

Lemma for_items_ok_readable (cache : list (Event num)) items :
  ∀ loc loc',
    Forall (fun item : string * string =>
              item.1 ∈ ["positioner1"; "positioner2"; "monitor"; "detector"])
           items →
    for_items cache items loc = Ok loc' →
    Forall (fun item => Forall (fun evt => is_Some (data evt !! item.2)) cache)
           items.
Proof.
  induction items as [|item rest IH]; intros loc loc' Hroles; [done|].
  apply Forall_cons_1 in Hroles as [Hrole Hroles]. cbn [for_items].
  destruct (loop_body cache loc item) as [loc1|] eqn:Hbody; [|done].
  cbn [mbind result_bind]. intros Hrest. constructor.
  - by eapply loop_body_ok_readable.
  - by eapply IH.
Qed.

(** A matching reduction that completes has read every configured
    channel in every event, and stored the averaged positions, [xas] and
    [xmcd], nothing else. *)
Lemma full_event_ok (s : Settings) (cache : list (Event num)) processed :
  full_event s (get_keys s) cache = Ok processed →
  readable s cache ∧
  ∃ xas xmcd,
    processed = <["xmcd" := xmcd]> (<["xas" := xas]> (positions s cache)).
Proof.
  unfold full_event.
  destruct (for_items cache (get_keys s) _) as [loc|] eqn:Hloop; [|done].
  assert (readable s cache) as Hread.
  { eapply for_items_ok_readable; [|exact Hloop].
    apply Forall_forall. intros item. apply get_keys_roles. }
  rewrite (for_items_get_keys s cache Hread) in Hloop.
  injection Hloop as <-. cbn [mbind result_bind]. intros Hx.
  split; [done|].
  destruct (xas_xmcd_positions s s _ (positions s cache) _ _ _
              eq_refl eq_refl Hx) as (xas & xmcd & -> & _).
  by exists xas, xmcd.
Qed.

Lemma dom_final (m : gmap string (value num)) xas xmcd :
  dom (<["xmcd" := xmcd]> (<["xas" := xas]> m)) = {["xas"; "xmcd"]} ∪ dom m.
Proof.
  rewrite !dom_insert_L. apply set_eq. intros x.
  rewrite !elem_of_union, !elem_of_singleton. tauto.
Qed.

Lemma dom_positions (s : Settings) (cache : list (Event num)) :
  dom (positions s cache) = list_to_set (positioner_names s).
Proof.
  unfold positions, positioner_names.
  destruct (positioner1 s), (positioner2 s); cbn;
    rewrite ?dom_insert_L, ?dom_empty_L; apply set_eq; intros x;
    rewrite ?elem_of_union, ?elem_of_singleton, ?elem_of_empty; tauto.
Qed.

Lemma dom_zero_positions (s : Settings) :
  dom (zero_positions (num:=num) s) = list_to_set (positioner_names s).
Proof.
  unfold zero_positions, positioner_names.
  destruct (positioner1 s), (positioner2 s); cbn;
    rewrite ?dom_insert_L, ?dom_empty_L; apply set_eq; intros x;
    rewrite ?elem_of_union, ?elem_of_singleton, ?elem_of_empty; tauto.
Qed.

(** X3: the derived event of a run whose channel map is the one of its
    settings has the fields [xas], [xmcd] and one field per configured
    positioner, in the matching and in the zero-filled case alike; the
    monitor and detector readings are not copied into it. *)
Theorem derived_fields (w w' : World num) (cache : list (Event num))
    (derived : Derived num) :
  data_keys (self w) = Some (get_keys (settings (self w))) →
  process_xmcd cache w = (w', Ok derived) →
  dom (d_data derived) =
    {["xas"; "xmcd"]} ∪ list_to_set (positioner_names (settings (self w))).
Proof.
  intros Hkeys Hrun.
  apply process_xmcd_inv in Hrun
    as (items & ok & processed & out & _ & _ & Hitems & _ & Hproc & _
        & -> & _).
  rewrite Hkeys in Hitems. injection Hitems as <-. destruct ok.
  - apply full_event_ok in Hproc as (_ & xas & xmcd & ->).
    by rewrite dom_final, dom_positions.
  - injection Hproc as <-.
    by rewrite zero_event_get_keys, dom_final, dom_zero_positions.
Qed.

Lemma dichro_out_entries (s : Settings) (processed : gmap string (value num))
    out :
  dichro_out s processed = Ok out →
  out.1.1.1 = entry_of (positioner1 s) processed ∧
  out.1.1.2 = entry_of (positioner2 s) processed.
Proof.
  unfold dichro_out, tuple_entry, getattr, entry_of, getitem. cbn.
  destruct (positioner1 s) as [p1|].
  - destruct (processed !! p1) as [v1|]; [|done]. cbn.
    destruct (positioner2 s) as [p2|].
    + destruct (processed !! p2) as [v2|]; [|done]. cbn.
      destruct (processed !! "xas"); [|done].
      destruct (processed !! "xmcd"); [|done]. by intros [= <-].
    + cbn. destruct (processed !! "xas"); [|done].
      destruct (processed !! "xmcd"); [|done]. by intros [= <-].
  - cbn. destruct (positioner2 s) as [p2|].
    + destruct (processed !! p2) as [v2|]; [|done]. cbn.
      destruct (processed !! "xas"); [|done].
      destruct (processed !! "xmcd"); [|done]. by intros [= <-].
    + cbn. destruct (processed !! "xas"); [|done].
      destruct (processed !! "xmcd"); [|done]. by intros [= <-].
Qed.

Lemma lookup_final_other (m : gmap string (value num)) xas xmcd key :
  key ≠ "xas" → key ≠ "xmcd" →
  (<["xmcd" := xmcd]> (<["xas" := xas]> m)) !! key = m !! key.
Proof. intros ? ?. by rewrite !lookup_insert_ne. Qed.

Lemma entry_of_averaged (s : Settings) (cache : list (Event num)) xas xmcd pos :
  pos = positioner1 s ∨ pos = positioner2 s →
  pos ∉ [Some "xas"; Some "xmcd"] →
  entry_of pos (<["xmcd" := xmcd]> (<["xas" := xas]> (positions s cache)))
  = averaged cache pos.
Proof.
  intros Hpos Hne. destruct pos as [channel|]; [|done].
  unfold entry_of, averaged. rewrite lookup_final_other.
  - rewrite (positions_lookup s cache channel); [done|].
    destruct Hpos as [Hp|Hp]; symmetry in Hp; eauto.
  - intros ->. apply Hne. apply list_elem_of_here.
  - intros ->. apply Hne. apply list_elem_of_further, list_elem_of_here.
Qed.

Lemma entry_of_zeroed (s : Settings) pos :
  pos = positioner1 s ∨ pos = positioner2 s →
  entry_of pos (<["xmcd" := PyInt 0]>
                  (<["xas" := PyInt 0]> (zero_positions (num:=num) s)))
  = zeroed pos.
Proof.
  intros Hpos. destruct pos as [channel|]; [|done].
  unfold entry_of, zeroed.
  destruct (decide ("xmcd" = channel)) as [<-|?]; [by rewrite lookup_insert_eq|].
  rewrite lookup_insert_ne by done.
  destruct (decide ("xas" = channel)) as [<-|?]; [by rewrite lookup_insert_eq|].
  rewrite lookup_insert_ne by done.
  rewrite (zero_positions_lookup s channel); [done|].
  destruct Hpos as [Hp|Hp]; symmetry in Hp; eauto.
Qed.

(** X4: the first two entries of the published tuple, and the positioner
    fields of the derived event, are the means of the positioner readings
    over the window when every configured channel is in the schema, and 0
    otherwise; an unset positioner gives NaN in both cases.  For the means
    the positioners must not be named like the fields [xas] and [xmcd],
    which are assigned last. *)
Theorem published_positions (w w' : World num) (cache : list (Event num))
    (desc_id : string) (desc : Descriptor) (derived : Derived num) :
  let s := settings (self w) in
  let expected := fun pos =>
    if forallb (fun item => bool_decide (snd item ∈ desc_data_keys desc))
               (get_keys s)
    then averaged cache pos else zeroed pos in
  data_keys (self w) = Some (get_keys s) →
  Forall (fun evt => descriptor evt = desc_id) cache →
  raw_descriptors (self w) !! desc_id = Some desc →
  positioner1 s ∉ [Some "xas"; Some "xmcd"] →
  positioner2 s ∉ [Some "xas"; Some "xmcd"] →
  process_xmcd cache w = (w', Ok derived) →
  sig_positioner1 (dichro w') = expected (positioner1 s) ∧
  sig_positioner2 (dichro w') = expected (positioner2 s) ∧
  entry_of (positioner1 s) (d_data derived) = expected (positioner1 s) ∧
  entry_of (positioner2 s) (d_data derived) = expected (positioner2 s).
Proof.
  intros s expected Hkeys Hall Hdesc Hne1 Hne2 Hrun.
  apply process_xmcd_inv in Hrun
    as (items & ok & processed & out & Hne & Hall1 & Hitems & Hks & Hproc
        & Hout & Hdata & ->).
  rewrite Hkeys in Hitems. injection Hitems as <-.
  assert (d_descriptor derived = desc_id) as Hid.
  { destruct cache as [|e0 rest]; [done|].
    apply Forall_inv in Hall, Hall1. congruence. }
  rewrite Hid, (keys_in_schema_found _ _ _ _ Hdesc) in Hks.
  injection Hks as Hok. unfold expected. rewrite Hok. clear expected.
  destruct (dichro_out_entries _ _ _ Hout) as [Hp1 Hp2].
  assert (entry_of (positioner1 s) processed
            = (if ok then averaged cache (positioner1 s)
               else zeroed (positioner1 s)) ∧
          entry_of (positioner2 s) processed
            = (if ok then averaged cache (positioner2 s)
               else zeroed (positioner2 s))) as [He1 He2].
  { destruct ok.
    - apply full_event_ok in Hproc as (_ & xas & xmcd & ->).
      split; apply entry_of_averaged; auto.
    - injection Hproc as <-. rewrite zero_event_get_keys.
      split; apply entry_of_zeroed; auto. }
  fold s in Hp1, Hp2. rewrite Hdata, <- He1, <- He2.
  destruct out as [[[a b] c] d]. cbn in Hp1, Hp2. by subst a b.
Qed.

(** The outcome of [process_xmcd] when the matching branch raises. *)
Lemma process_xmcd_full_raise (cache : list (Event num)) (w : World num)
    desc_id desc items e :
  cache ≠ [] →
  Forall (fun evt => descriptor evt = desc_id) cache →
  data_keys (self w) = Some items →
  raw_descriptors (self w) !! desc_id = Some desc →
  Forall (fun item => snd item ∈ desc_data_keys desc) items →
  full_event (settings (self w)) items cache = Raise e →
  process_xmcd cache w = (w, Raise e).
Proof.
  intros Hne Hall Hitems Hdesc Hschema Hfull.
  destruct cache as [|e0 rest]; [done|].
  pose proof (Forall_inv Hall) as He0. simpl in He0. subst desc_id.
  unfold process_xmcd. unfold_M.
  rewrite (forallb_descriptor_true _ _ Hall). cbn [negb].
  rewrite Hitems, (keys_in_schema_found _ _ _ _ Hdesc).
  rewrite (forallb_schema_true _ _ Hschema). by rewrite Hfull.
Qed.

(** X5: when the schema matches but the monitor or the detector is not
    configured, the reduction raises [UnboundLocalError] for the local
    that [_xas] reads first, and nothing is published, forwarded or
    logged: an unset monitor is not handled by the zero-filled branch. *)
Theorem unset_monitor_raises (w : World num) (cache : list (Event num))
    (desc_id : string) (desc : Descriptor) :
  let s := settings (self w) in
  cache ≠ [] →
  Forall (fun evt => descriptor evt = desc_id) cache →
  raw_descriptors (self w) !! desc_id = Some desc →
  Forall (conforms desc) cache →
  data_keys (self w) = Some (get_keys s) →
  Forall (fun item => snd item ∈ desc_data_keys desc) (get_keys s) →
  monitor s = None ∨ detector s = None →
  process_xmcd cache w = (w, Raise (UnboundLocalError (unbound_local s))).
Proof.
  intros s Hne Hall Hdesc Hconf Hkeys Hschema Hunset.
  eapply process_xmcd_full_raise; try done.
  pose proof (conforms_readable s desc cache Hschema Hconf) as Hread.
  unfold full_event. rewrite (for_items_get_keys s cache Hread).
  cbn [mbind result_bind]. unfold xas_xmcd, absorption, unbound_local.
  fold s.
  destruct (transmission s), (monitor s), (detector s), Hunset;
    try discriminate; reflexivity.
Qed.

(** X6: [settings.pattern] is read when a window is reduced, not when
    the run starts: if by then its length differs from the window's and
    neither length is one, the product with the pattern cannot be
    broadcast, the reduction raises [ValueError] and nothing is
    published, forwarded or logged. *)
Theorem pattern_length_mismatch (w : World num) (cache : list (Event num))
    (desc_id : string) (desc : Descriptor) (mon det : string) :
  let s := settings (self w) in
  length cache ≠ length (pattern s) →
  length cache ≠ 1 →
  length (pattern s) ≠ 1 →
  cache ≠ [] →
  Forall (fun evt => descriptor evt = desc_id) cache →
  raw_descriptors (self w) !! desc_id = Some desc →
  Forall (conforms desc) cache →
  data_keys (self w) = Some (get_keys s) →
  monitor s = Some mon →
  detector s = Some det →
  Forall (fun item => snd item ∈ desc_data_keys desc) (get_keys s) →
  process_xmcd cache w =
    (w, Raise (ValueError "operands could not be broadcast together")).
Proof.
  intros s Hlen Hc1 Hp1 Hne Hall Hdesc Hconf Hkeys Hmon Hdet Hschema.
  eapply process_xmcd_full_raise; try done.
  pose proof (conforms_readable s desc cache Hschema Hconf) as Hread.
  unfold full_event. rewrite (for_items_get_keys s cache Hread), Hmon, Hdet.
  cbn [mbind result_bind fmap option_fmap option_map].
  unfold xas_xmcd. fold s.
  set (A := absorption_of (transmission s)
                          (readings cache mon) (readings cache det)).
  assert (absorption s
            {| processed_evt := positions s cache;
               _mon := Some (readings cache mon);
               _det := Some (readings cache det) |} = Ok A) as ->.
  { unfold absorption, A, absorption_of. by destruct (transmission s). }
  cbn [mbind result_bind processed_evt].
  assert (length A = length cache) as HA.
  { unfold A.
    pose proof (readable_length s cache "monitor" mon Hread
                  (get_keys_monitor _ _ Hmon)) as Hm.
    pose proof (readable_length s cache "detector" det Hread
                  (get_keys_detector _ _ Hdet)) as Hd.
    rewrite length_absorption_of; congruence. }
  unfold times_pattern.
  destruct (Nat.eqb (length A) (length (pattern s))) eqn:Heq.
  { apply Nat.eqb_eq in Heq. congruence. }
  rewrite <- HA in Hc1.
  destruct A as [|a [|a' A']], (pattern s) as [|p [|p' pat]];
    cbn in *; done.
Qed.

(** ** The lifecycle *)

(** X7: while no run is active (before the first [start], after a
    [stop]) an event never changes the world: it raises [KeyError] when
    its descriptor is not cached, is ignored when the descriptor is not
    the primary one, and raises [AttributeError] otherwise, since there
    is no node to emit it into. *)
Theorem event_outside_run (w : World num) (doc : Event num) :
  nodes (self w) = None →
  (event doc w).1 = w ∧
  (event doc w).2 =
    match raw_descriptors (self w) !! descriptor doc with
    | None => Raise (KeyError (descriptor doc))
    | Some desc =>
        if bool_decide (desc_name desc = Some "primary")
        then Raise (AttributeError "emit")
        else Ok tt
    end.
Proof.
  intros Hn. unfold event, emit. unfold_M. unfold getitem.
  destruct (raw_descriptors (self w) !! descriptor doc) as [desc|]; [|done].
  destruct (bool_decide (desc_name desc = Some "primary")); [|done].
  cbv beta. by rewrite Hn.
Qed.

(** One call of [event], whatever its outcome, keeps a buffer that is
    shorter than the window. *)
Lemma event_invariant (w : World num) (p : Partition num) (doc : Event num) :
  nodes (self w) = Some p →
  length (part_buffer p) < part_n p →
  ∃ p', nodes (self (event doc w).1) = Some p' ∧
        part_n p' = part_n p ∧
        length (part_buffer p') < part_n p' ∧
        n (self (event doc w).1) = n (self w) ∧
        data_keys (self (event doc w).1) = data_keys (self w) ∧
        settings (self (event doc w).1) = settings (self w).
Proof.
  intros Hn Hlt.
  destruct (raw_descriptors (self w) !! descriptor doc) as [desc|] eqn:Hd.
  2:{ unfold event. unfold_M. unfold getitem. rewrite Hd. by exists p. }
  destruct (decide (desc_name desc = Some "primary")) as [Hp|Hp].
  2:{ unfold event. unfold_M. unfold getitem. rewrite Hd.
      rewrite bool_decide_eq_false_2 by done. by exists p. }
  rewrite (event_primary w p doc desc Hn Hd Hp).
  destruct (decide (length (part_buffer p ++ [doc]) = part_n p)) as [Hl|Hl].
  - rewrite (partition_update_full p doc Hl). cbn [fst snd]. cbv zeta.
    set (w1 := with_self w _).
    pose proof (process_xmcd_self (part_buffer p ++ [doc]) w1) as Hself.
    destruct (process_xmcd _ w1) as [w2 [derived|e]]; cbn [fst] in Hself.
    + unfold process_event. unfold_M. cbn [fst self].
      exists {| part_n := part_n p; part_buffer := [] |}.
      rewrite Hself. cbn. repeat split; try done. lia.
    + cbn [fst]. exists {| part_n := part_n p; part_buffer := [] |}.
      rewrite Hself. cbn. repeat split; try done. lia.
  - rewrite (partition_update_partial p doc Hl). cbn [fst snd]. cbv zeta.
    eexists. split; [reflexivity|]. cbn. repeat split; try done.
    rewrite length_app in *. cbn in *. lia.
Qed.

(** X8: from a state whose buffer is shorter than the window, any
    sequence of events, including one cut short by an exception, leaves
    a buffer that is shorter than the window, of the same window size,
    and leaves the field [n], the channel map and the settings as they
    were. *)
Theorem buffer_stays_short (docs : list (Event num)) (w : World num)
    (p : Partition num) :
  nodes (self w) = Some p →
  length (part_buffer p) < part_n p →
  ∃ p', nodes (self (events docs w).1) = Some p' ∧
        part_n p' = part_n p ∧
        length (part_buffer p') < part_n p' ∧
        n (self (events docs w).1) = n (self w) ∧
        data_keys (self (events docs w).1) = data_keys (self w) ∧
        settings (self (events docs w).1) = settings (self w).
Proof.
  revert w p. induction docs as [|doc rest IH]; intros w p Hn Hlt.
  - by exists p.
  - destruct (event_invariant w p doc Hn Hlt)
      as (p1 & Hn1 & Hsize1 & Hlt1 & Hnn1 & Hk1 & Hs1).
    cbn [events]. unfold mbind, M_bind.
    destruct (event doc w) as [w1 [[]|e]]; cbn [fst] in *.
    + destruct (IH w1 p1 Hn1 Hlt1) as (p2 & Hn2 & Hsize2 & Hlt2 & Hnn2 & Hk2 & Hs2).
      exists p2. repeat split; congruence.
    + exists p1. repeat split; congruence.
Qed.

Lemma motors_of_channel_map (s : Settings) :
  positioner_names s =
    map snd (List.filter (fun item => str_in "positioner" (fst item))
                         (get_keys s)).
Proof.
  rewrite get_keys_unfold. unfold positioner_names.
  destruct (positioner1 s), (positioner2 s), (monitor s), (detector s);
    reflexivity.
Qed.

(** X9: [start] never raises and never reduces: whatever was buffered is
    dropped, nothing is published or logged, the partition is rebuilt
    empty with the length of the pattern as its size, and the start
    document forwarded carries as [motors] the channels of the positioner
    roles of the captured channel map, in order, whatever [motors] the
    incoming document had. *)
Theorem start_effect (w : World num) (sd : StartDoc) :
  let s := settings (self w) in
  let w' := (start sd w).1 in
  (start sd w).2 = Ok tt ∧
  nodes (self w') =
    Some {| part_n := length (pattern s); part_buffer := [] |} ∧
  data_keys (self w') = Some (get_keys s) ∧
  emitted (self w') =
    emitted (self w) ++
    [DocStart {| start_uid := start_uid sd;
                 motors := map snd (List.filter
                                      (fun item => str_in "positioner" (fst item))
                                      (get_keys s)) |}] ∧
  settings (self w') = s ∧
  dichro w' = dichro w ∧
  warnings w' = warnings w.
Proof.
  cbv zeta. unfold start. unfold_M.
  cbn [fst snd self nodes data_keys emitted settings dichro warnings
       with_emitted].
  rewrite <- motors_of_channel_map. done.
Qed.

(** ** Staging *)

Lemma stage_positioners_beyond (positioner : list (option string)) :
  ∀ i s, stage_positioners (S (S i)) positioner s = s.
Proof.
  induction positioner as [|name rest IH]; intros i s; [done|].
  cbn [stage_positioners setattr_positioner]. apply IH.
Qed.

(** X10: staging a dichro scan after [stop] sets the two positioners
    from the scanned motors alone: the first two entries of the list,
    [None] where the list is shorter, whatever an earlier run had
    configured; the monitor is the counters' monitor, the detector the
    first plot name if there is one, and the transmission flag and the
    pattern are not touched. *)
Theorem staged_after_stop (w : World num) (uid : string)
    (positioner : list (option string)) (plot_names : list string)
    (counters_monitor : string) :
  let s := stage_settings positioner plot_names counters_monitor
             (settings (self (stop uid w).1)) in
  positioner1 s = default None (positioner !! 0) ∧
  positioner2 s = default None (positioner !! 1) ∧
  monitor s = Some counters_monitor ∧
  detector s = match plot_names with
               | name :: _ => Some name
               | [] => detector (settings (self w))
               end ∧
  transmission s = transmission (settings (self w)) ∧
  pattern s = pattern (settings (self w)).
Proof.
  cbv zeta. unfold stage_settings.
  destruct positioner as [|p1 [|p2 rest]]; cbn [stage_positioners].
  - destruct plot_names; done.
  - destruct plot_names; done.
  - rewrite stage_positioners_beyond. destruct plot_names; done.
Qed.

(** ** Publication *)

Lemma subscribers_put t (d : DichroDevice num) :
  subscribers (put t d) = subscribers d.
Proof. destruct t as [[[p1 p2] xas] xmcd]. reflexivity. Qed.

Lemma readback_put t (d : DichroDevice num) : readback (put t d) = t.
Proof. destruct t as [[[p1 p2] xas] xmcd]. reflexivity. Qed.

Lemma puts_invoked (ts : list (dev_tuple num)) (d : DichroDevice num) :
  invoked (puts ts d) = invoked d ++ notifications (subscribers d) ts ∧
  subscribers (puts ts d) = subscribers d.
Proof.
  revert d. induction ts as [|t ts IH]; intros d.
  - cbn. by rewrite app_nil_r.
  - unfold puts in *. cbn [fold_left notifications flat_map].
    destruct (IH (put t d)) as (Hinv & Hsubs).
    rewrite Hinv, Hsubs, invoked_put, subscribers_put.
    by rewrite <- app_assoc.
Qed.

(** X11: successive publications notify every observer once per
    publication, in the order of publication and, within one, in the
    order of registration; the observers stay registered and the signals
    hold the last tuple published. *)
Theorem puts_notify_in_order (ts : list (dev_tuple num)) (d : DichroDevice num) :
  invoked (puts ts d) = invoked d ++ notifications (subscribers d) ts ∧
  subscribers (puts ts d) = subscribers d ∧
  readback (puts ts d) = default (readback d) (last ts).
Proof.
  destruct (puts_invoked ts d) as [Hinv Hsubs].
  split; [exact Hinv|]. split; [exact Hsubs|].
  revert d Hinv Hsubs. induction ts as [|t ts IH]; intros d _ _; [done|].
  unfold puts in *. cbn [fold_left].
  destruct (puts_invoked ts (put t d)) as [Hinv Hsubs].
  rewrite (IH (put t d) Hinv Hsubs), readback_put.
  destruct ts as [|t' ts]; [done|]. rewrite last_cons_cons.
  destruct (last (t' :: ts)) eqn:Hlast; [done|].
  by apply last_None in Hlast.
Qed.

Lemma event_partial_dichro (w : World num) (p : Partition num) doc :
  nodes (self w) = Some p → primary (self w) doc →
  length (part_buffer p ++ [doc]) ≠ part_n p →
  dichro (event doc w).1 = dichro w.
Proof.
  intros Hn (desc & Hd & Hp) Hlen.
  rewrite (event_primary w p doc desc Hn Hd Hp).
  by rewrite (partition_update_partial p doc Hlen).
Qed.

Lemma event_full_dichro (w : World num) (p : Partition num) doc derived :
  nodes (self w) = Some p → primary (self w) doc →
  length (part_buffer p ++ [doc]) = part_n p →
  (process_xmcd (part_buffer p ++ [doc]) w).2 = Ok derived →
  ∃ t, dichro_out (settings (self w)) (d_data derived) = Ok t ∧
       dichro (event doc w).1 = put t (dichro w).
Proof.
  intros Hn (desc & Hd & Hp) Hlen Hproc.
  rewrite (event_primary w p doc desc Hn Hd Hp).
  rewrite (partition_update_full p doc Hlen). cbn [fst snd]. cbv zeta.
  set (w1 := with_self w _).
  assert (same_run (self w) (self w1)) as Hsame by done.
  rewrite <- (process_xmcd_same_run _ w w1 Hsame) in Hproc.
  destruct (process_xmcd _ w1) as [w2 r] eqn:Hrun. cbn [snd] in Hproc.
  subst r.
  apply process_xmcd_inv in Hrun
    as (items & ok & processed & out & _ & _ & _ & _ & _ & Hout & Hdata & ->).
  exists out. split; [by rewrite Hdata|]. reflexivity.
Qed.

(** The device after a run of events is the device before it after one
    publication per window. *)
Lemma events_puts (docs : list (Event num)) :
  ∀ (w : World num) (p : Partition num),
    nodes (self w) = Some p →
    Forall (primary (self w)) docs →
    Forall (fun c => ∃ d, (process_xmcd c w).2 = Ok d)
           (windows (part_n p) (part_buffer p) docs) →
    ∃ ts,
      dichro (events docs w).1 = puts ts (dichro w) ∧
      Forall2 (fun c t => ∃ d, (process_xmcd c w).2 = Ok d ∧
                               dichro_out (settings (self w)) (d_data d) = Ok t)
              (windows (part_n p) (part_buffer p) docs) ts.
Proof.
  induction docs as [|doc rest IH]; intros w p Hn Hprim Hok.
  - exists []. split; [done|]. constructor.
  - apply Forall_cons_1 in Hprim as [Hdoc Hrest].
    cbn [windows events] in *. unfold mbind, M_bind.
    destruct (Nat.eqb (length (part_buffer p ++ [doc])) (part_n p)) eqn:Hlen.
    + apply Nat.eqb_eq in Hlen.
      apply Forall_cons_1 in Hok as [[d Hd] Hok].
      destruct (event_full w p doc d Hn Hdoc Hlen Hd)
        as (w1 & Hev & Hsame & Hn1 & _).
      destruct (event_full_dichro w p doc d Hn Hdoc Hlen Hd) as (t & Ht & Hput).
      rewrite Hev in Hput |- *. cbn [fst] in Hput.
      destruct (IH w1 _ Hn1) as (ts & Hputs & Hts).
      { eapply Forall_impl; [exact Hrest|].
        intros x. by apply primary_same_run. }
      { eapply Forall_impl; [exact Hok|]. intros c [d' Hd']. exists d'.
        by rewrite (process_xmcd_same_run c w w1 Hsame). }
      exists (t :: ts). split.
      * rewrite Hputs, Hput. reflexivity.
      * constructor; [by exists d|].
        cbn [part_n part_buffer] in Hts.
        eapply Forall2_impl; [exact Hts|]. intros c t' (d' & Hd' & Ht').
        exists d'. pose proof Hsame as (_ & Hs & _).
        rewrite <- (process_xmcd_same_run c w w1 Hsame).
        by rewrite <- Hs.
    + apply Nat.eqb_neq in Hlen.
      destruct (event_partial w p doc Hn Hdoc Hlen)
        as (w1 & Hev & Hsame & Hn1 & _).
      pose proof (event_partial_dichro w p doc Hn Hdoc Hlen) as Hput.
      rewrite Hev in Hput |- *. cbn [fst] in Hput.
      destruct (IH w1 _ Hn1) as (ts & Hputs & Hts).
      { eapply Forall_impl; [exact Hrest|].
        intros x. by apply primary_same_run. }
      { cbn [part_n part_buffer].
        eapply Forall_impl; [exact Hok|]. intros c [d' Hd']. exists d'.
        by rewrite (process_xmcd_same_run c w w1 Hsame). }
      exists ts. split.
      * by rewrite Hputs, Hput.
      * cbn [part_n part_buffer] in Hts.
        eapply Forall2_impl; [exact Hts|]. intros c t' (d' & Hd' & Ht').
        exists d'. pose proof Hsame as (_ & Hs & _).
        rewrite <- (process_xmcd_same_run c w w1 Hsame).
        by rewrite <- Hs.
Qed.

(** X12: in a run made of [start], the descriptors and then k primary
    events during which no reduction raises, the device receives exactly
    k / N publications, the i-th one being the tuple of the i-th window,
    so that every observer is notified k / N times, window after window;
    [stop] publishes nothing more. *)
Theorem run_publishes (w : World num) (sd : StartDoc)
    (descs : list (string * Descriptor)) (uid : string)
    (docs : list (Event num)) :
  let size := length (pattern (settings (self w))) in
  let k := length docs in
  let w0 := (descriptor_docs descs (start sd w).1).1 in
  let w1 := (events docs w0).1 in
  let window := fun i => take size (drop (i * size) docs) in
  Forall (primary (self w0)) docs →
  (∀ i, i < k / size → ∃ d, (process_xmcd (window i) w0).2 = Ok d) →
  ∃ ts,
    length ts = k / size ∧
    Forall2 (fun i t =>
               ∃ d, (process_xmcd (window i) w0).2 = Ok d ∧
                    dichro_out (settings (self w)) (d_data d) = Ok t)
            (seq 0 (k / size)) ts ∧
    dichro w1 = puts ts (dichro w) ∧
    invoked (dichro w1) =
      invoked (dichro w) ++ notifications (subscribers (dichro w)) ts ∧
    dichro (stop uid w1).1 = dichro w1.
Proof.
  intros size k w0 w1 window Hprim Hok.
  destruct (windows_from_empty size docs) as [Hwin _].
  destruct (descriptor_docs_frame descs (start sd w).1)
    as (_ & _ & Hn0 & _ & Hs0 & _ & Hd0 & _).
  fold w0 in Hn0, Hs0, Hd0.
  destruct (events_puts docs w0 {| part_n := size; part_buffer := [] |})
    as (ts & Hputs & Hts).
  - by rewrite Hn0.
  - exact Hprim.
  - cbn [part_n part_buffer]. rewrite Hwin. apply Forall_forall.
    intros c Hc. apply list_elem_of_fmap in Hc as (i & -> & Hi).
    apply elem_of_seq in Hi. apply Hok. unfold k. lia.
  - cbn [part_n part_buffer] in Hts. rewrite Hwin in Hts.
    change (map ?f ?l) with (f <$> l) in Hts.
    apply Forall2_fmap_l in Hts.
    fold w1 in Hputs. rewrite Hd0 in Hputs.
    change (dichro (start sd w).1) with (dichro w) in Hputs.
    exists ts. split.
    { apply Forall2_length in Hts. by rewrite length_seq in Hts. }
    split.
    { eapply Forall2_impl; [exact Hts|]. intros i t (d & Hd & Ht).
      exists d. split; [exact Hd|]. by rewrite Hs0 in Ht. }
    split; [exact Hputs|]. split; [|done].
    rewrite Hputs.
    by destruct (puts_invoked ts (dichro w)) as [-> _].
Qed.

End More.

(** * The properties on the sample runs *)

Import RealArith Samples.

(** Proves [Forall P l] for an explicit list, each element by [tac]. *)
Ltac each tac := repeat (constructor; [tac|]); constructor.

Lemma sample_conforms : Forall (conforms desc_primary) window1.
Proof. each ltac:(unfold conforms; compute_done). Qed.

Lemma sample_same_descriptor :
  Forall (fun evt => descriptor evt = "d1") window1.
Proof. each ltac:(idtac; reflexivity). Qed.

Lemma reducer_absorption_witness :
  ∃ w' derived,
    process_xmcd window1 world1 = (w', Ok derived) ∧
    d_data derived !! "xas" =
      Some (PyFloat (fmean (absorption_of true (readings window1 "4idhI0")
                                          (readings window1 "4idhI1")))) ∧
    warnings w' = warnings world1.
Proof.
  destruct (reducer_absorption world1 window1 "d1" desc_primary
              "4idhI0" "4idhI1")
    as (w' & derived & Hrun & _ & Hxas & _ & _ & _ & Hwarn).
  - discriminate.
  - reflexivity.
  - exact sample_same_descriptor.
  - reflexivity.
  - exact sample_conforms.
  - reflexivity.
  - reflexivity.
  - reflexivity.
  - each ltac:(idtac; compute_done).
  - exists w', derived. split; [exact Hrun|]. split; [exact Hxas|exact Hwarn].
Defined.

Lemma reducer_degraded_witness :
  ∃ w' derived,
    process_xmcd window1 world_unmatched = (w', Ok derived) ∧
    warnings w' = [schema_warning] ∧
    d_data derived !! "xas" = Some (PyInt 0) ∧
    d_data derived !! "xmcd" = Some (PyInt 0) ∧
    d_data derived !! "energy" = Some (PyInt 0).
Proof.
  destruct (reducer_degraded world_unmatched window1 "d1" desc_primary
              ("monitor", "missing"))
    as (w' & derived & Hrun & Hwarn & Hxas & Hxmcd & Hp1 & _).
  - discriminate.
  - exact sample_same_descriptor.
  - reflexivity.
  - reflexivity.
  - compute_done.
  - compute_done.
  - exists w', derived. repeat split; assumption.
Defined.

Lemma event_ignores_other_streams_witness :
  event e_baseline world3 = (world3, Ok tt).
Proof.
  apply (event_ignores_other_streams world3 e_baseline desc_baseline).
  - reflexivity.
  - discriminate.
Defined.

Lemma mixed_window_raises_witness :
  process_xmcd [e1; e2; e3; e_other] world3 = (world3, Raise mixed_bundle) ∧
  ∃ w', event e_other world3 = (w', Raise mixed_bundle) ∧
        dichro w' = dichro world3 ∧
        emitted (self w') = emitted (self world3) ∧
        warnings w' = warnings world3.
Proof.
  apply (mixed_window_raises world3 buffer3 e_other desc_reconfigured
           e1 e_other).
  - vm_compute. reflexivity.
  - reflexivity.
  - reflexivity.
  - reflexivity.
  - apply list_elem_of_here.
  - do 3 apply list_elem_of_further. apply list_elem_of_here.
  - discriminate.
Defined.


Lemma window_completeness_witness :
  ∃ w1 ds w2,
    events nine_events world1 = (w1, Ok tt) ∧
    length ds = 2 ∧
    emitted (self w1) = emitted (self world1) ++ map DocEvent ds ∧
    nodes (self w1) = Some {| part_n := 4; part_buffer := [e1] |} ∧
    stop "stop1" w1 = (w2, Ok tt) ∧
    nodes (self w2) = None ∧
    emitted (self w2) = emitted (self w1) ++ [DocStop "stop1"].
Proof.
  destruct (window_completeness world0 start_doc descriptors "stop1"
              nine_events)
    as (w1 & ds & w2 & Hev & Hlen & _ & Hem & Hn & _ & Hstop & Hn2 & Hem2 & _).
  - each ltac:(idtac; exists desc_primary; split; reflexivity).
  - intros i Hi. change (i < 2) in Hi.
    destruct i as [|[|i]]; [| |lia].
    + eexists. vm_compute. reflexivity.
    + eexists. vm_compute. reflexivity.
  - exists w1, ds, w2.
    split; [exact Hev|]. split; [exact Hlen|]. split; [exact Hem|].
    split; [exact Hn|]. split; [exact Hstop|]. split; [exact Hn2|exact Hem2].
Defined.

Lemma absent_positioner2_witness :
  sig_positioner2 (dichro (process_xmcd window1 world1).1) = PyFloat NaN ∧
  ∃ w2 d2,
    process_xmcd window1
      (with_self world1 (with_positioner2 (Some "magnet") (self world1)))
      = (w2, Ok d2) ∧
    sig_xas (dichro w2) = sig_xas (dichro (process_xmcd window1 world1).1) ∧
    sig_xmcd (dichro w2) = sig_xmcd (dichro (process_xmcd window1 world1).1).
Proof.
  destruct (absent_positioner2 world1 (process_xmcd window1 world1).1 window1
              "d1" desc_primary "magnet"
              (returned (process_xmcd window1 world1)))
    as (Hnan & w2 & d2 & Hrun & Hxas & Hxmcd & _).
  - reflexivity.
  - reflexivity.
  - exact sample_same_descriptor.
  - reflexivity.
  - exact sample_conforms.
  - compute_done.
  - vm_compute. reflexivity.
  - split; [exact Hnan|]. exists w2, d2.
    split; [exact Hrun|]. split; [exact Hxas|exact Hxmcd].
Defined.

(** ** The further properties on the sample runs *)

Lemma derived_fields_witness :
  dom (d_data (returned (process_xmcd window1 world1))) =
    {["xas"; "xmcd"]} ∪ list_to_set ["energy"].
Proof.
  apply (derived_fields world1 (process_xmcd window1 world1).1 window1).
  - reflexivity.
  - vm_compute. reflexivity.
Defined.

Lemma published_positions_witness :
  sig_positioner1 (dichro (process_xmcd window1 world1).1) =
    PyFloat (fmean (readings window1 "energy")) ∧
  sig_positioner2 (dichro (process_xmcd window1 world1).1) = PyFloat NaN.
Proof.
  destruct (published_positions world1 (process_xmcd window1 world1).1
              window1 "d1" desc_primary
              (returned (process_xmcd window1 world1)))
    as (Hp1 & Hp2 & _).
  - reflexivity.
  - exact sample_same_descriptor.
  - reflexivity.
  - compute_done.
  - compute_done.
  - vm_compute. reflexivity.
  - split; [exact Hp1|exact Hp2].
Defined.

Lemma unset_monitor_raises_witness :
  process_xmcd window1 world_no_monitor =
    (world_no_monitor, Raise (UnboundLocalError "_mon")).
Proof.
  apply (unset_monitor_raises world_no_monitor window1 "d1" desc_primary).
  - discriminate.
  - exact sample_same_descriptor.
  - reflexivity.
  - exact sample_conforms.
  - reflexivity.
  - each ltac:(idtac; compute_done).
  - left. reflexivity.
Defined.

Lemma pattern_length_mismatch_witness :
  process_xmcd window1 world_repatterned =
    (world_repatterned,
     Raise (ValueError "operands could not be broadcast together")).
Proof.
  apply (pattern_length_mismatch world_repatterned window1 "d1" desc_primary
           "4idhI0" "4idhI1").
  - discriminate.
  - discriminate.
  - discriminate.
  - discriminate.
  - exact sample_same_descriptor.
  - reflexivity.
  - exact sample_conforms.
  - reflexivity.
  - reflexivity.
  - reflexivity.
  - each ltac:(idtac; compute_done).
Defined.

Lemma event_outside_run_witness :
  (event e1 world_idle).1 = world_idle ∧
  (event e1 world_idle).2 = Raise (AttributeError "emit").
Proof.
  apply (event_outside_run world_idle e1). reflexivity.
Defined.

Lemma buffer_stays_short_witness :
  ∃ p', nodes (self (events (nine_events ++ [e_other; e2; e3; e4]) world1).1)
          = Some p' ∧
        part_n p' = 4 ∧
        length (part_buffer p') < 4.
Proof.
  destruct (buffer_stays_short (nine_events ++ [e_other; e2; e3; e4]) world1
              {| part_n := 4; part_buffer := [] |})
    as (p' & Hn & Hsize & Hlt & _).
  - reflexivity.
  - cbn. lia.
  - exists p'. split; [exact Hn|]. split; [exact Hsize|].
    rewrite Hsize in Hlt. exact Hlt.
Defined.

Lemma run_publishes_witness :
  ∃ ts,
    length ts = 2 ∧
    invoked (dichro (events nine_events world1).1) =
      notifications [1; 2] ts.
Proof.
  destruct (run_publishes world0 start_doc descriptors "stop1" nine_events)
    as (ts & Hlen & _ & _ & Hinv & _).
  - each ltac:(idtac; exists desc_primary; split; reflexivity).
  - intros i Hi. change (i < 2) in Hi.
    destruct i as [|[|i]]; [| |lia].
    + eexists. vm_compute. reflexivity.
    + eexists. vm_compute. reflexivity.
  - exists ts. split; [exact Hlen|exact Hinv].
Defined.

(** ** Where the documentation and the code part *)

(** C2: eight primary events and windows of four should give two
    derived events; when the first window mixes two descriptors of the
    primary stream, the delivery stops on the exception with no derived
    event forwarded, and even when the caller goes on delivering the
    remaining four events only one derived event is forwarded. *)
Lemma mixed_run_emits_less :
  let w_raised := (events (take 4 mixed_events) world1).1 in
  Forall (primary (self world1)) mixed_events ∧
  length mixed_events / length (pattern (settings (self world1))) = 2 ∧
  (events mixed_events world1).2 = Raise mixed_bundle ∧
  emitted (self (events mixed_events world1).1) = emitted (self world1) ∧
  ∃ d, emitted (self (events (drop 4 mixed_events) w_raised).1) =
         emitted (self world1) ++ [DocEvent d].
Proof.
  split.
  { each ltac:(idtac; first [ exists desc_primary; split; reflexivity
                            | exists desc_reconfigured; split; reflexivity ]). }
  split; [reflexivity|].
  split; [vm_compute; reflexivity|].
  split; [vm_compute; reflexivity|].
  eexists. vm_compute. reflexivity.
Qed.


(** C5: after [start] and [stop] of a run with two states per window the
    field [n] still holds 2, although the nodes and the channel map are
    gone: the window size is not cleared, neither to 0 nor to the 4 of a
    fresh stream. *)
Lemma window_size_survives_stop :
  let w' := (stop "stop1" world_pairs).1 in
  n (self world_pairs) = 2 ∧
  n (self w') = 2 ∧
  n (self w') ≠ 0 ∧
  n (self w') ≠ n (DichroStream_init (num:=xreal)) ∧
  nodes (self w') = None ∧
  data_keys (self w') = None.
Proof. vm_compute. repeat split; discriminate. Qed.

Import Reals Lra.

(** C7: in a fluorescence run without second positioner the first window
    publishes [xas = 21/40]; the same window in the same run with
    [positioner2] set to a channel that the descriptor does not have
    publishes [xas = 0]. *)
Lemma absent_positioner2_unmatched :
  let w_bad := with_self world_fluo
                 (with_positioner2 (Some "missing") (self world_fluo)) in
  positioner2 (settings (self world_fluo)) = None ∧
  (∃ d, (process_xmcd window1 world_fluo).2 = Ok d) ∧
  (∃ d, (process_xmcd window1 w_bad).2 = Ok d) ∧
  ∃ r r_bad,
    to_R (sig_xas (dichro (process_xmcd window1 world_fluo).1)) = Some r ∧
    to_R (sig_xas (dichro (process_xmcd window1 w_bad).1)) = Some r_bad ∧
    r = (21 / 40)%R ∧ r_bad = 0%R ∧ r ≠ r_bad.
Proof.
  split; [reflexivity|].
  split; [eexists; vm_compute; reflexivity|].
  split; [eexists; vm_compute; reflexivity|].
  eexists _, _.
  split; [vm_compute; reflexivity|].
  split; [vm_compute; reflexivity|].
  repeat split; lra.
Qed.
